(** * Forest-fire pollutant flow script: monthly aggregation and period composites

    A shallow embedding of [Forest_Fire_Code_GEE.js].  The script is a
    client-side composition of Earth Engine primitives: every [ee.*] object it
    builds is a description of a server-side computation.  The embedding keeps
    that shape.

    - Client-side arithmetic on the month index ([ee.Number], [ee.String],
      [ee.Date]) is embedded as functions on [Z], [Q], [string] and a calendar
      record.
    - Image collections, images and reductions are embedded as the request
      trees the script builds ([ImageCollection], [Image], [Scalar]).
    - A denotation ([evalC], [evalI], [evalS]) gives those trees their meaning
      over a catalogue of images.  It follows the documented contract of the
      hosted service; the areal reduction ([reduceRegion]) stays a black box.
    - Pixel values are exact rationals, except where the outcome of the
      service's binary64 arithmetic is the question: band arithmetic
      ([evalOp]) is written once and read both ways ([Arithmetic]). *)

From Stdlib Require Import ZArith QArith Qround Qabs List String Ascii Bool Lia.
From Stdlib Require PrimFloat FloatOps SpecFloat Uint63.
Import ListNotations.

Open Scope string_scope.
Open Scope Z_scope.

(* ------------------------------------------------------------------------- *)
(** ** [ee.Number] and [ee.String] as used on the month index *)

Module Number.

(** [ee.Number(a).divide(b)]: the quotient is not truncated.  It is the
    exact quotient here; the service rounds it to binary64, which gives the
    same [floor] for the month indices of the script and beyond, up to the
    year 9999 at least. *)
Definition divide (a b : Z) : Q := (inject_Z a / inject_Z b)%Q.

(** [.floor()] *)
Definition floor (q : Q) : Z := Qfloor q.

(** [.add(b)] *)
Definition add (a b : Z) : Z := a + b.

(** [.mod(b)]: remainder with the sign of the dividend. *)
Definition mod_ (a b : Z) : Z := Z.rem a b.

Definition digit (d : Z) : ascii := ascii_of_nat (48 + Z.to_nat d).

(** Decimal digits of a non-negative number, most significant first. *)
Fixpoint digits (fuel : nat) (n : Z) (acc : string) : string :=
  match fuel with
  | O => acc
  | S fuel' =>
      let acc' := String (digit (n mod 10)) acc in
      if n / 10 =? 0 then acc' else digits fuel' (n / 10) acc'
  end.

Definition decimal (n : Z) : string :=
  digits (S (Z.to_nat (Z.log2 n))) n "".

(** [.format('%d')] *)
Definition format_d (n : Z) : string :=
  if n <? 0 then "-" ++ decimal (- n) else decimal n.

Fixpoint zeros (k : nat) : string :=
  match k with
  | O => ""
  | S k' => String "0" (zeros k')
  end.

(** [.format('%0<w>d')]: sign first, then zeros up to width [w]. *)
Definition format_0d (w : nat) (n : Z) : string :=
  if n <? 0
  then "-" ++ zeros (w - 1 - String.length (decimal (- n))) ++ decimal (- n)
  else zeros (w - String.length (decimal n)) ++ decimal n.

(** [.format('%02d')] *)
Definition format_02d : Z -> string := format_0d 2.

End Number.

(* ------------------------------------------------------------------------- *)
(** ** [ee.Date]: a UTC calendar date at midnight *)

Module Date.

Record t : Type := mk { year : Z; month : Z; day : Z }.

(** [ee.Date.fromYMD(year, month, day)] *)
Definition fromYMD (y m d : Z) : t := mk y m d.

Definition is_leap (y : Z) : bool :=
  ((y mod 4 =? 0) && negb (y mod 100 =? 0)) || (y mod 400 =? 0).

Definition days_in_month (y m : Z) : Z :=
  if m =? 2 then (if is_leap y then 29 else 28)
  else if (m =? 4) || (m =? 6) || (m =? 9) || (m =? 11) then 30
  else 31.

Inductive unit_ : Type := Month | Year.

(** [date.advance(delta, unit)]: calendar arithmetic; the day of the month
    is kept, and clamped when the target month is shorter. *)
Definition advance (delta : Z) (u : unit_) (d : t) : t :=
  let months := match u with Month => delta | Year => 12 * delta end in
  let idx := year d * 12 + (month d - 1) + months in
  let y := idx / 12 in
  let m := idx mod 12 + 1 in
  mk y m (Z.min (day d) (days_in_month y m)).

(** Days since 1970-01-01 of a proleptic Gregorian date. *)
Definition days_from_civil (y m d : Z) : Z :=
  let y' := if m <=? 2 then y - 1 else y in
  let era := y' / 400 in
  let yoe := y' - era * 400 in
  let doy := (153 * (if m <=? 2 then m + 9 else m - 3) + 2) / 5 + d - 1 in
  let doe := yoe * 365 + yoe / 4 - yoe / 100 + doy in
  era * 146097 + doe - 719468.

(** [date.millis()]: milliseconds since the epoch.  Dates of the service
    are bounded; the theorems below stay within the year 9999. *)
Definition millis (d : t) : Z :=
  days_from_civil (year d) (month d) (day d) * 86400000.

Definition ltb (a b : t) : bool := millis a <? millis b.
Definition leb (a b : t) : bool := millis a <=? millis b.

(** A time stamp lies in the half-open interval [[s, e)]. *)
Definition within (s e : t) (time : Z) : bool :=
  (millis s <=? time) && (time <? millis e).

End Date.

(* ------------------------------------------------------------------------- *)
(** ** The month list, bucket windows and labels (script lines 62-102) *)

Module List_.

(** [ee.List.sequence(start, end)]: both ends included, step 1. *)
Definition sequence (start stop : Z) : list Z :=
  map (fun k => start + Z.of_nat k) (seq 0 (Z.to_nat (stop - start + 1))).

End List_.

Definition fireStart : Date.t := Date.fromYMD 2019 12 15.      (* '2019-12-15' *)
Definition fireEnd : Date.t := Date.fromYMD 2020 1 10.         (* '2020-01-10' *)

Definition timeSeriesStart : Date.t := Date.fromYMD 2019 1 1.  (* '2019-01-01' *)
Definition timeSeriesEnd : Date.t := Date.fromYMD 2024 12 31.  (* '2024-12-31' *)

Definition months : list Z := List_.sequence 0 23.

Definition year (month : Z) : Z :=
  Number.add (Number.floor (Number.divide month 12)) 2019.

Definition monthOfYear (month : Z) : Z :=
  Number.add (Number.mod_ month 12) 1.

Definition monthStart (month : Z) : Date.t :=
  Date.fromYMD (year month) (monthOfYear month) 1.

Definition monthEnd (month : Z) : Date.t :=
  Date.advance 1 Date.Month (monthStart month).

Definition monthString (month : Z) : string :=
  Number.format_d (year month) ++ "-" ++ Number.format_02d (monthOfYear month).

Definition monthLabels : list string := map monthString months.

(* ------------------------------------------------------------------------- *)
(** ** Requests: the objects the script builds *)

(** A region is an ordered ring of (longitude, latitude) vertices. *)
Definition Geometry : Type := list (Q * Q).

Inductive Reducer : Type := Mean | Median | Max.

Inductive Operator : Type := LESS_THAN | GREATER_THAN | EQUALS.

(** Band arithmetic inside a function mapped over a collection; [Arg] is the
    function's parameter. *)
Inductive ImageOp : Type :=
| Arg
| OpSelect (selector : string) (e : ImageOp)
| OpMultiply (k : Q) (e : ImageOp)
| OpAdd (k : Q) (e : ImageOp)
| OpAddBands (src : ImageOp) (overwrite : bool) (e : ImageOp).

Inductive ImageCollection : Type :=
| Load (id : string)
| filterBounds (g : Geometry) (c : ImageCollection)
| filterDate (start stop : Date.t) (c : ImageCollection)
| filterMetadata (name : string) (op : Operator) (v : Q) (c : ImageCollection)
| selectC (selector : string) (c : ImageCollection)
| mapC (body : ImageOp) (c : ImageCollection).

Inductive Image : Type :=
| reduce (r : Reducer) (c : ImageCollection)
| select (selector : string) (i : Image)
| clip (g : Geometry) (i : Image)
| gt (k : Q) (i : Image).

Record ReduceRegionArgs : Type := mkArgs {
  reducer : Reducer;
  geometry_ : Geometry;
  scale : Q;
  bestEffort : bool;
  maxPixels : Q
}.

Inductive DictExpr : Type :=
| reduceRegion (args : ReduceRegionArgs) (i : Image).

Inductive Scalar : Type :=
| get (key : string) (d : DictExpr).

(** Method chains are written receiver first: [c |> filterDate s e]. *)
Notation "x |> f" := (f x) (at level 71, left associativity, only parsing).

Definition mean : ImageCollection -> Image := reduce Mean.
Definition median : ImageCollection -> Image := reduce Median.
Definition max : ImageCollection -> Image := reduce Max.

(** [collection.map(f)] for a client function [f] on images. *)
Definition map_ (f : ImageOp -> ImageOp) : ImageCollection -> ImageCollection :=
  mapC (f Arg).

(* ------------------------------------------------------------------------- *)
(** ** [ee.Dictionary] and [ee.Feature] *)

Module Dictionary.

(** Entries are kept in the natural order of their keys; [values] lists
    them in that order. *)
Definition t (A : Type) : Type := list (string * A).

Fixpoint set {A} (k : string) (v : A) (d : t A) : t A :=
  match d with
  | [] => [(k, v)]
  | (k', v') :: d' =>
      match String.compare k k' with
      | Lt => (k, v) :: d
      | Eq => (k, v) :: d'
      | Gt => (k', v') :: set k v d'
      end
  end.

(** [ee.Dictionary.fromLists(keys, values)] on parallel lists. *)
Definition fromLists {A} (keys : list string) (vals : list A) : t A :=
  fold_left (fun d kv => set (fst kv) (snd kv) d) (combine keys vals) [].

(** [dict.map(f)]: [f] receives the key and the value. *)
Definition map {A B} (f : string -> A -> B) (d : t A) : t B :=
  List.map (fun kv => (fst kv, f (fst kv) (snd kv))) d.

Definition keys {A} (d : t A) : list string := List.map fst d.
Definition values {A} (d : t A) : list A := List.map snd d.

End Dictionary.

Inductive Property (V : Type) : Type :=
| PString (s : string)
| PNumber (v : V).
Arguments PString {V} s.
Arguments PNumber {V} v.

(** [ee.Feature(null, properties)]: no geometry, named properties. *)
Definition Feature (V : Type) : Type := list (string * Property V).

Definition property {V} (name : string) (f : Feature V) : option (Property V) :=
  option_map snd (find (fun kv => String.eqb name (fst kv)) f).

Record Vis : Type := mkVis {
  vis_min : option Q;
  vis_max : option Q;
  palette : list string;
  vis_bands : list string
}.

(** One [Map.addLayer(eeObject, visParams, name, shown, opacity)] call. *)
Record Layer : Type := mkLayer {
  eeObject : Image;
  visParams : Vis;
  name : string;
  shown : bool;
  opacity : Q
}.

(* ------------------------------------------------------------------------- *)
(** ** The script *)

Section Script.

(** The study polygon is an imported asset of the script. *)
Variable aoi : Geometry.

Definition roi : Geometry := aoi.
Definition geometry : Geometry := aoi.

Definition no2 : ImageCollection := Load "COPERNICUS/S5P/OFFL/L3_NO2".
Definition co : ImageCollection := Load "COPERNICUS/S5P/OFFL/L3_CO".

(** *** Part 1: monthly CO series *)

Definition co_collection : ImageCollection :=
  co |> filterBounds aoi |> filterDate timeSeriesStart timeSeriesEnd.

Definition monthlyCO : list Scalar :=
  map (fun month =>
         let filtered := co_collection |> filterDate (monthStart month) (monthEnd month) in
         let meanCO := filtered |> mean |> select "CO_column_number_density" in
         let monthlyCOValue :=
           meanCO |> reduceRegion {| reducer := Mean; geometry_ := aoi;
                                     scale := 5000; bestEffort := true;
                                     maxPixels := 100000000 |}
                  |> get "CO_column_number_density" in
         monthlyCOValue)
      months.

Definition monthlyCO_dict : Dictionary.t Scalar :=
  Dictionary.fromLists monthLabels monthlyCO.

Definition co_features : Dictionary.t (Feature Scalar) :=
  Dictionary.map (fun key value =>
                    let month := key in
                    let co_value := value in
                    [("month", PString month); ("co", PNumber co_value)])
                 monthlyCO_dict.

Definition co_featureCollection : list (Feature Scalar) :=
  Dictionary.values co_features.

(** *** Part 2: monthly NO2 series *)

Definition no2_collection : ImageCollection :=
  no2 |> filterBounds aoi |> filterDate timeSeriesStart timeSeriesEnd.

Definition monthlyNO2 : list Scalar :=
  map (fun month =>
         let filtered := no2_collection |> filterDate (monthStart month) (monthEnd month) in
         let meanNO2 := filtered |> mean |> select "NO2_column_number_density" in
         let monthlyNO2Value :=
           meanNO2 |> reduceRegion {| reducer := Mean; geometry_ := aoi;
                                      scale := 5000; bestEffort := true;
                                      maxPixels := 100000000 |}
                   |> get "NO2_column_number_density" in
         monthlyNO2Value)
      months.

Definition monthlyNO2_dict : Dictionary.t Scalar :=
  Dictionary.fromLists monthLabels monthlyNO2.

Definition no2_features : Dictionary.t (Feature Scalar) :=
  Dictionary.map (fun key value =>
                    let month := key in
                    let no2_value := value in
                    [("month", PString month); ("no2", PNumber no2_value)])
                 monthlyNO2_dict.

Definition no2_featureCollection : list (Feature Scalar) :=
  Dictionary.values no2_features.

(** *** Parts 3-5: Sentinel-5P composites over the fire period *)

Definition collection_CO_fire : Image :=
  Load "COPERNICUS/S5P/NRTI/L3_CO"
    |> selectC "CO_column_number_density"
    |> filterBounds roi
    |> filterDate fireStart fireEnd
    |> mean.

Definition clip_CO : Image := collection_CO_fire |> clip roi.

Definition s5p_palette : list string :=
  ["black"; "blue"; "purple"; "cyan"; "green"; "yellow"; "red"].

Definition co_viz : Vis := mkVis (Some 0%Q) (Some 0.05%Q) s5p_palette [].

Definition collection_NO2_fire : Image :=
  Load "COPERNICUS/S5P/NRTI/L3_NO2"
    |> selectC "NO2_column_number_density"
    |> filterBounds roi
    |> filterDate fireStart fireEnd
    |> mean.

Definition clip_NO2 : Image := collection_NO2_fire |> clip roi.

Definition no2_viz : Vis := mkVis (Some 0%Q) (Some 0.0002%Q) s5p_palette [].

Definition sentinel5p_aer : Image :=
  Load "COPERNICUS/S5P/OFFL/L3_AER_AI"
    |> selectC "absorbing_aerosol_index"
    |> filterDate (Date.fromYMD 2019 12 1) fireEnd
    |> filterBounds geometry
    |> mean.

Definition aer_viz : Vis := mkVis (Some (-1)%Q) (Some 3.0%Q) s5p_palette [].

Definition sent_aer : Image := sentinel5p_aer |> clip geometry.

(** *** Part 6: Landsat 8 *)

Definition l8 : ImageCollection := Load "LANDSAT/LC08/C02/T1_L2".

Definition landsatFire : ImageCollection :=
  l8 |> filterDate fireStart fireEnd
     |> filterBounds roi
     |> filterMetadata "CLOUD_COVER" LESS_THAN 30.

Definition applyScaleFactors (image : ImageOp) : ImageOp :=
  let opticalBands :=
    image |> OpSelect "SR_B." |> OpMultiply 0.0000275 |> OpAdd (-0.2) in
  let thermalBands :=
    image |> OpSelect "ST_B.*" |> OpMultiply 0.00341802 |> OpAdd 149.0 in
  image |> OpAddBands opticalBands true
        |> OpAddBands thermalBands true.

Definition landsatFireScaled : ImageCollection :=
  landsatFire |> map_ applyScaleFactors.

Definition landsat_rgb : Layer :=
  mkLayer (landsatFireScaled |> median |> clip roi)
          (mkVis (Some 0%Q) (Some 0.3%Q) [] ["SR_B4"; "SR_B3"; "SR_B2"])
          "Landsat 8 RGB" false 1.

Definition landsat_false_color : Layer :=
  mkLayer (landsatFireScaled |> median |> clip roi)
          (mkVis (Some 0%Q) (Some 0.5%Q) [] ["SR_B7"; "SR_B6"; "SR_B4"])
          "Landsat 8 False Color (Fire)" true 1.

(** *** Part 7: MODIS fire radiative power *)

Definition modisFire : Image :=
  Load "MODIS/006/MOD14A1"
    |> filterDate fireStart fireEnd
    |> selectC "MaxFRP"
    |> filterBounds roi
    |> max.

Definition modisFire_roi : Image := modisFire |> clip roi.

Definition frp_viz : Vis :=
  mkVis (Some 0%Q) (Some 500%Q) ["yellow"; "orange"; "red"; "darkred"] [].

(** The [Map.addLayer] calls, in script order. *)
Definition layers : list Layer :=
  [ mkLayer clip_CO co_viz "S5P CO (Fire Period)" true 0.7;
    mkLayer clip_NO2 no2_viz "S5P NO2 (Fire Period)" false 0.7;
    mkLayer sent_aer aer_viz "S5P Aerosol Index" true 0.7;
    landsat_rgb;
    landsat_false_color;
    mkLayer (modisFire_roi |> gt 0) (mkVis None None ["red"] [])
            "MODIS Fire Points" true 1;
    mkLayer modisFire_roi frp_viz "MODIS Fire Radiative Power" false 1 ].

End Script.

(* ------------------------------------------------------------------------- *)
(** ** Band selectors *)

Module Selector.

(** A selector is a regular expression matched against the whole band name.
    The script uses plain names, [.] (any character) and [.*]. *)
Inductive atom : Type := Lit (c : ascii) | Any.
Inductive item : Type := One (a : atom) | Star (a : atom).

Definition atom_of (c : ascii) : atom :=
  if Ascii.eqb c "." then Any else Lit c.

Fixpoint parse (s : string) : list item :=
  match s with
  | EmptyString => []
  | String c rest =>
      match rest with
      | String "*" rest' => Star (atom_of c) :: parse rest'
      | _ => One (atom_of c) :: parse rest
      end
  end.

Definition accepts (a : atom) (c : ascii) : bool :=
  match a with
  | Lit c' => Ascii.eqb c' c
  | Any => true
  end.

Fixpoint run (its : list item) (s : string) : bool :=
  match its with
  | [] => match s with EmptyString => true | _ => false end
  | One a :: its' =>
      match s with
      | String c s' => accepts a c && run its' s'
      | EmptyString => false
      end
  | Star a :: its' =>
      (fix star (s : string) : bool :=
         run its' s
         || match s with
            | String c s' => accepts a c && star s'
            | EmptyString => false
            end) s
  end.

Definition matches (selector name : string) : bool := run (parse selector) name.

End Selector.

(* ------------------------------------------------------------------------- *)
(** ** Denotation of requests over a catalogue *)

Definition bind {A B} (x : option A) (f : A -> option B) : option B :=
  match x with
  | Some a => f a
  | None => None
  end.

Notation "x >>= f" := (bind x f) (at level 50, left associativity).

Fixpoint traverse {A B} (f : A -> option B) (l : list A) : option (list B) :=
  match l with
  | [] => Some []
  | a :: l' =>
      f a >>= fun b => traverse f l' >>= fun bs => Some (b :: bs)
  end.

Fixpoint lookup {A} (k : string) (l : list (string * A)) : option A :=
  match l with
  | [] => None
  | (k', v) :: l' => if String.eqb k k' then Some v else lookup k l'
  end.

Definition qmax (a b : Q) : Q := if Qle_bool a b then b else a.

Definition qsum (vs : list Q) : Q := fold_right Qplus 0%Q vs.

Fixpoint qinsert (v : Q) (vs : list Q) : list Q :=
  match vs with
  | [] => [v]
  | w :: vs' => if Qle_bool v w then v :: vs else w :: qinsert v vs'
  end.

Definition qsort (vs : list Q) : list Q := fold_right qinsert [] vs.

Definition qmedian (vs : list Q) : Q :=
  let s := qsort vs in
  let n := List.length s in
  if Nat.even n
  then ((nth (n / 2 - 1) s 0 + nth (n / 2) s 0) / 2)%Q
  else nth (n / 2) s 0%Q.

(** A temporal reducer over the valid values one pixel has across the stack;
    a pixel with no valid value stays masked. *)
Definition reduceValues (r : Reducer) (vs : list Q) : option Q :=
  match vs with
  | [] => None
  | v :: vs' =>
      Some match r with
           | Mean => (qsum vs / inject_Z (Z.of_nat (List.length vs)))%Q
           | Median => qmedian vs
           | Max => fold_left qmax vs' v
           end
  end.

(** Ground positions are the pixels; a raster gives each one a value or
    leaves it masked.  [V] is the type of the values. *)
Definition RasterOf (V Pixel : Type) : Type := Pixel -> option V.
Definition BandsOf (V Pixel : Type) : Type := list (string * RasterOf V Pixel).

(** Rasters of exact rationals. *)
Definition Raster (Pixel : Type) : Type := RasterOf Q Pixel.
Definition Bands (Pixel : Type) : Type := BandsOf Q Pixel.

Record ImageData (Pixel : Type) : Type := mkImage {
  time_start : Z;                       (* system:time_start, milliseconds *)
  footprint : Geometry;
  properties : list (string * Q);
  bands : Bands Pixel
}.
Arguments mkImage {Pixel} _ _ _ _.
Arguments time_start {Pixel} _.
Arguments footprint {Pixel} _.
Arguments properties {Pixel} _.
Arguments bands {Pixel} _.

(** The catalogue: the images stored under each collection identifier. *)
Definition Catalog (Pixel : Type) : Type := string -> list (ImageData Pixel).

(** What the script consumes from the hosted service without fixing it: the
    geometry tests behind [filterBounds] and [clip], and the areal reduction
    behind [reduceRegion], which yields a number or no value. *)
Class Service (Pixel : Type) : Type := {
  intersects : Geometry -> Geometry -> bool;
  contains : Geometry -> Pixel -> bool;
  regionReduce : ReduceRegionArgs -> Raster Pixel -> option Q
}.

(* ------------------------------------------------------------------------- *)
(** ** Band operations, for any number format *)

(** [image.multiply(k)] and [image.add(k)] on one value.  The constants of a
    request are decimal numerals. *)
Class Arithmetic (V : Type) : Type := {
  op_multiply : V -> Q -> V;
  op_add : V -> Q -> V
}.

(** Exact arithmetic on rationals. *)
#[export] Instance exact : Arithmetic Q :=
  {| op_multiply := fun v k => (v * k)%Q;
     op_add := fun v k => (v + k)%Q |}.

Module Binary64.

(** IEEE 754 binary64, the number format of the service. *)
Definition t : Type := PrimFloat.float.

Definition of_Z (z : Z) : t :=
  match z with
  | Z0 => PrimFloat.zero
  | Zpos _ => PrimFloat.of_uint63 (Uint63.of_Z z)
  | Zneg p => PrimFloat.opp (PrimFloat.of_uint63 (Uint63.of_Z (Zpos p)))
  end.

(** The binary64 number nearest to a decimal numeral: numerator and
    denominator are exact below 2^53, and the quotient is rounded once. *)
Definition of_Q (q : Q) : t :=
  PrimFloat.div (of_Z (Qnum q)) (of_Z (Zpos (Qden q))).

(** The rational a finite binary64 number stands for. *)
Definition to_Q (f : t) : option Q :=
  match FloatOps.Prim2SF f with
  | SpecFloat.S754_zero _ => Some 0%Q
  | SpecFloat.S754_finite s m e =>
      let v := (inject_Z (Zpos m)
                * (if 0 <=? e then inject_Z (2 ^ e) else / inject_Z (2 ^ (- e))))%Q in
      Some (if s then (- v)%Q else v)
  | _ => None
  end.

Definition multiply (v : t) (k : Q) : t := PrimFloat.mul v (of_Q k).
Definition add (v : t) (k : Q) : t := PrimFloat.add v (of_Q k).

End Binary64.

#[export] Instance binary64 : Arithmetic Binary64.t :=
  {| op_multiply := Binary64.multiply; op_add := Binary64.add |}.

Section BandOperations.

Context {V Pixel : Type} {arithmetic : Arithmetic V}.

(** [select]: the bands whose name the selector matches.  A selector that
    matches no band has no result. *)
Definition selectBands (selector : string) (bs : BandsOf V Pixel)
  : option (BandsOf V Pixel) :=
  match filter (fun b => Selector.matches selector (fst b)) bs with
  | [] => None
  | b :: bs' => Some (b :: bs')
  end.

Definition mapValues (f : V -> V) (bs : BandsOf V Pixel) : BandsOf V Pixel :=
  map (fun b => (fst b, fun p => option_map f (snd b p))) bs.

Definition hasBand (k : string) (bs : BandsOf V Pixel) : bool :=
  match lookup k bs with Some _ => true | None => false end.

(** [dst.addBands(src, null, overwrite)] *)
Definition addBands (src : BandsOf V Pixel) (overwrite : bool) (dst : BandsOf V Pixel)
  : BandsOf V Pixel :=
  if overwrite
  then app (map (fun b => match lookup (fst b) src with
                          | Some r => (fst b, r)
                          | None => b
                          end) dst)
           (filter (fun b => negb (hasBand (fst b) dst)) src)
  else app dst (map (fun b => if hasBand (fst b) dst
                              then (fst b ++ "_1", snd b) else b) src).

Fixpoint evalOp (e : ImageOp) (arg : BandsOf V Pixel) : option (BandsOf V Pixel) :=
  match e with
  | Arg => Some arg
  | OpSelect selector e' => evalOp e' arg >>= selectBands selector
  | OpMultiply k e' => option_map (mapValues (fun v => op_multiply v k)) (evalOp e' arg)
  | OpAdd k e' => option_map (mapValues (fun v => op_add v k)) (evalOp e' arg)
  | OpAddBands src overwrite e' =>
      evalOp e' arg >>= fun dst =>
      evalOp src arg >>= fun s => Some (addBands s overwrite dst)
  end.

(** The value a result has for band [b] at pixel [p]: no such band, a masked
    pixel, or a number. *)
Definition valueAt (b : string) (p : Pixel) (bs : BandsOf V Pixel)
  : option (option V) :=
  option_map (fun r => r p) (lookup b bs).

End BandOperations.

Section Semantics.

Context {Pixel : Type} {service : Service Pixel}.

Definition with_bands (im : ImageData Pixel) (bs : Bands Pixel)
  : ImageData Pixel :=
  mkImage (time_start im) (footprint im) (properties im) bs.

Definition testProperty (name : string) (op : Operator) (v : Q)
           (im : ImageData Pixel) : bool :=
  match lookup name (properties im) with
  | Some x =>
      match op with
      | LESS_THAN => negb (Qle_bool v x)
      | GREATER_THAN => negb (Qle_bool x v)
      | EQUALS => Qeq_bool x v
      end
  | None => false
  end.

Fixpoint evalC (cat : Catalog Pixel) (c : ImageCollection)
  : option (list (ImageData Pixel)) :=
  match c with
  | Load id => Some (cat id)
  | filterBounds g c' =>
      option_map (filter (fun im => intersects g (footprint im))) (evalC cat c')
  | filterDate start stop c' =>
      option_map (filter (fun im => Date.within start stop (time_start im)))
                 (evalC cat c')
  | filterMetadata name op v c' =>
      option_map (filter (testProperty name op v)) (evalC cat c')
  | selectC selector c' =>
      evalC cat c' >>=
      traverse (fun im => option_map (with_bands im) (selectBands selector (bands im)))
  | mapC body c' =>
      evalC cat c' >>=
      traverse (fun im => option_map (with_bands im) (evalOp body (bands im)))
  end.

(** The valid values of band [b] at pixel [p] across a stack of images. *)
Definition stack (imgs : list (ImageData Pixel)) (b : string) (p : Pixel)
  : list Q :=
  flat_map (fun im => match lookup b (bands im) with
                      | Some r => match r p with Some v => [v] | None => [] end
                      | None => []
                      end) imgs.

(** [collection.reduce(r)]: pixel-wise over the stack, bands matched by
    name; the bands are those of the first image, none for an empty stack. *)
Definition reduceImages (r : Reducer) (imgs : list (ImageData Pixel))
  : Bands Pixel :=
  match imgs with
  | [] => []
  | im :: _ =>
      map (fun b => (fst b, fun p => reduceValues r (stack imgs (fst b) p)))
          (bands im)
  end.

Definition clipBands (g : Geometry) (bs : Bands Pixel) : Bands Pixel :=
  map (fun b => (fst b, fun p => if contains g p then snd b p else None)) bs.

Fixpoint evalI (cat : Catalog Pixel) (i : Image) : option (Bands Pixel) :=
  match i with
  | reduce r c => option_map (reduceImages r) (evalC cat c)
  | select selector i' => evalI cat i' >>= selectBands selector
  | clip g i' => option_map (clipBands g) (evalI cat i')
  | gt k i' =>
      option_map (mapValues (fun v => if Qle_bool v k then 0 else 1)%Q)
                 (evalI cat i')
  end.

(** [image.reduceRegion(args)]: one entry per band; an entry is null
    ([None]) when the areal reduction has no value. *)
Definition evalD (cat : Catalog Pixel) (d : DictExpr)
  : option (Dictionary.t (option Q)) :=
  match d with
  | reduceRegion args i =>
      option_map (fun bs => Dictionary.fromLists (map fst bs)
                              (map (fun b => regionReduce args (snd b)) bs))
                 (evalI cat i)
  end.

(** [dict.get(key)]: the entry under [key]; no result without such entry. *)
Definition evalS (cat : Catalog Pixel) (s : Scalar) : option (option Q) :=
  match s with
  | get key d => evalD cat d >>= lookup key
  end.

Definition evalProperty (cat : Catalog Pixel) (kv : string * Property Scalar)
  : option (string * Property (option Q)) :=
  match snd kv with
  | PString s => Some (fst kv, PString s)
  | PNumber v => option_map (fun x => (fst kv, PNumber x)) (evalS cat v)
  end.

(** The evaluated feature collection handed to the chart. *)
Definition evalFeatures (cat : Catalog Pixel) (fs : list (Feature Scalar))
  : option (list (Feature (option Q))) :=
  traverse (traverse (evalProperty cat)) fs.

End Semantics.

(* ------------------------------------------------------------------------- *)
(** ** Reading the script's outputs *)

(** The "YYYY-MM" reader: four digits, a dash, two digits. *)
Definition digit_value (c : ascii) : option Z :=
  let n := Z.of_nat (nat_of_ascii c) in
  if (48 <=? n) && (n <=? 57) then Some (n - 48) else None.

Definition parse_label (s : string) : option (Z * Z) :=
  match s with
  | String y1 (String y2 (String y3 (String y4 (String sep
      (String m1 (String m2 EmptyString)))))) =>
      if Ascii.eqb sep "-" then
        match digit_value y1, digit_value y2, digit_value y3, digit_value y4,
              digit_value m1, digit_value m2 with
        | Some a, Some b, Some c, Some d, Some e, Some f =>
            Some (1000 * a + 100 * b + 10 * c + d, 10 * e + f)
        | _, _, _, _, _, _ => None
        end
      else None
  | _ => None
  end.

(** Keys in strictly increasing order. *)
Fixpoint strictly_increasing (l : list string) : bool :=
  match l with
  | [] => true
  | a :: l' => forallb (fun b => String.ltb a b) l' && strictly_increasing l'
  end.

(** The window span as the specification counts it:
    (end.year*12 + end.month) - (start.year*12 + start.month). *)
Definition month_span (start stop : Date.t) : Z :=
  (Date.year stop * 12 + Date.month stop)
  - (Date.year start * 12 + Date.month start).

(** The bucket of a month index, as a half-open interval of time stamps. *)
Definition in_bucket (month : Z) (time : Z) : bool :=
  Date.within (monthStart month) (monthEnd month) time.

(** The temporal reducer and the source collection behind a composite. *)
Fixpoint temporalReducer (i : Image) : Reducer :=
  match i with
  | reduce r _ => r
  | select _ i' | clip _ i' | gt _ i' => temporalReducer i'
  end.

Fixpoint sourceC (c : ImageCollection) : string :=
  match c with
  | Load id => id
  | filterBounds _ c' | filterDate _ _ c' | filterMetadata _ _ _ c'
  | selectC _ c' | mapC _ c' => sourceC c'
  end.

Fixpoint sourceI (i : Image) : string :=
  match i with
  | reduce _ c => sourceC c
  | select _ i' | clip _ i' | gt _ i' => sourceI i'
  end.

Section Aggregate.

Context {Pixel : Type} {service : Service Pixel}.

(** One monthly sample in the specification's words: restrict the source
    collection to the bucket's window and the region, take the temporal mean,
    select the band, reduce over the region with an areal mean at 5 km, a
    pixel ceiling and the best-effort flag. *)
Definition aggregate (band collectionId : string) (region : Geometry)
           (bucket : Date.t * Date.t) (cat : Catalog Pixel) : option (option Q) :=
  let stack :=
    filter (fun im => Date.within (fst bucket) (snd bucket) (time_start im)
                      && intersects region (footprint im))
           (cat collectionId) in
  let composite := reduceImages Mean stack in
  selectBands band composite >>= fun bs =>
  lookup band
    (Dictionary.fromLists (map fst bs)
       (map (fun b => regionReduce
                        {| reducer := Mean; geometry_ := region; scale := 5000;
                           bestEffort := true; maxPixels := 100000000 |}
                        (snd b)) bs)).

(** Two catalogues hold the same imagery dated before [cutoff]. *)
Definition agree_before (cutoff : Date.t) (cat1 cat2 : Catalog Pixel) : Prop :=
  forall id,
    filter (fun im => time_start im <? Date.millis cutoff) (cat1 id)
    = filter (fun im => time_start im <? Date.millis cutoff) (cat2 id).

End Aggregate.

(* ------------------------------------------------------------------------- *)
(** ** A small service and catalogues, to run the script on *)

Module Sample.

(** Two ground positions: [true] inside every region, [false] outside. *)
Definition service : Service bool :=
  {| intersects := fun _ fp => match fp with [] => false | _ => true end;
     contains := fun _ p => p;
     regionReduce := fun _ r => r true |}.

Definition aoi : Geometry :=
  [(149 # 1, -(37 # 1)); (151 # 1, -(37 # 1)); (151 # 1, -(35 # 1));
   (149 # 1, -(35 # 1)); (149 # 1, -(37 # 1))]%Q.

Definition const (v : Q) : Raster bool := fun _ => Some v.

Definition image (y m d : Z) (bs : Bands bool) : ImageData bool :=
  mkImage (Date.millis (Date.fromYMD y m d)) aoi [("CLOUD_COVER", 12%Q)] bs.

Definition s5p (v : Q) : Bands bool :=
  [("CO_column_number_density", const v);
   ("NO2_column_number_density", const (v / 1000))].

(** Two catalogues with the same imagery up to 2020 and different imagery
    afterwards. *)
Definition cat1 : Catalog bool :=
  fun _ => [image 2019 6 15 (s5p 0.03); image 2020 1 5 (s5p 0.09);
            image 2022 3 1 (s5p 1)].

Definition cat2 : Catalog bool :=
  fun _ => [image 2019 6 15 (s5p 0.03); image 2020 1 5 (s5p 0.09);
            image 2021 1 1 (s5p 5); image 2023 5 5 (s5p 2)].

(** One fire image inside the fire period, one before it. *)
Definition frp : Raster bool := fun p => Some (if p then 120 else 80)%Q.

Definition fire_image : ImageData bool :=
  image 2019 12 20 [("FireMask", const 8); ("MaxFRP", frp)].

Definition modis : Catalog bool :=
  fun _ => [image 2019 11 1 [("FireMask", const 3); ("MaxFRP", const 40)];
            fire_image].

(** The fire image with its [MaxFRP] band selected. *)
Definition fire_image_frp : ImageData bool :=
  with_bands fire_image [("MaxFRP", frp)].

(** A Landsat scene with one optical band at 20000 and one thermal band. *)
Definition scene : Bands bool :=
  [("SR_B4", const 20000); ("ST_B10", const 44000); ("QA_PIXEL", const 1)].

(** Three Landsat scenes of the fire period, two dark and one bright. *)
Definition landsat : Catalog bool :=
  fun _ => [image 2019 12 16 [("SR_B4", const 10000); ("ST_B10", const 44000)];
            image 2019 12 24 [("SR_B4", const 10000); ("ST_B10", const 44000)];
            image 2020 1 2 [("SR_B4", const 40000); ("ST_B10", const 44000)]].

End Sample.

(* ------------------------------------------------------------------------- *)
(** ** Further readings of the script's outputs *)

Section Readings.

Context {Pixel : Type} {service : Service Pixel}.

(** Two catalogues hold, under [id], the same imagery of one bucket and
    region. *)
Definition same_in_bucket (region : Geometry) (month : Z) (id : string)
           (cat1 cat2 : Catalog Pixel) : Prop :=
  filter (fun im => in_bucket month (time_start im)
                    && intersects region (footprint im)) (cat1 id)
  = filter (fun im => in_bucket month (time_start im)
                      && intersects region (footprint im)) (cat2 id).

(** Every raster of a result is masked at pixel [p]. *)
Definition maskedAt (p : Pixel) (bs : Bands Pixel) : Prop :=
  forall b r, In (b, r) bs -> r p = None.

(** [collection.size()] *)
Definition evalSize (cat : Catalog Pixel) (c : ImageCollection) : option nat :=
  option_map (@List.length _) (evalC cat c).

End Readings.

(** What [applyScaleFactors] does to one value of band [k]. *)
Definition rescale (k : string) (raw : Q) : Q :=
  if Selector.matches "SR_B." k then (raw * 0.0000275 + -0.2)%Q
  else if Selector.matches "ST_B.*" k then (raw * 0.00341802 + 149.0)%Q
  else raw.

(** A selector without [.] and [*] is a plain band name. *)
Fixpoint plain (s : string) : bool :=
  match s with
  | EmptyString => true
  | String c s' => negb (Ascii.eqb c ".") && negb (Ascii.eqb c "*") && plain s'
  end.

(** The arguments of the monthly areal reduction (script lines 85-91). *)
Definition monthly_args (region : Geometry) : ReduceRegionArgs :=
  {| reducer := Mean; geometry_ := region; scale := 5000;
     bestEffort := true; maxPixels := 100000000 |}.

(** The sample scene in binary64, and a scene with an optical band only. *)
Definition const64 (z : Z) : RasterOf Binary64.t bool :=
  fun _ => Some (Binary64.of_Z z).

Definition scene64 : BandsOf Binary64.t bool :=
  [("SR_B4", const64 20000); ("ST_B10", const64 44000); ("QA_PIXEL", const64 1)].

Definition optical_only64 : BandsOf Binary64.t bool :=
  [("SR_B4", const64 20000); ("QA_PIXEL", const64 1)].

(** The sample scene after rescaling, in exact arithmetic. *)
Definition scene_scaled : Bands bool :=
  [("SR_B4", Sample.const (20000 * 0.0000275 + -0.2));
   ("ST_B10", Sample.const (44000 * 0.00341802 + 149.0));
   ("QA_PIXEL", Sample.const 1)].


(* ------------------------------------------------------------------------- *)
(** ** The definitions at work *)

Example months_eval :
  months = [0;1;2;3;4;5;6;7;8;9;10;11;12;13;14;15;16;17;18;19;20;21;22;23].
Proof. reflexivity. Qed.

Example monthLabels_eval :
  monthLabels =
  ["2019-01";"2019-02";"2019-03";"2019-04";"2019-05";"2019-06";
   "2019-07";"2019-08";"2019-09";"2019-10";"2019-11";"2019-12";
   "2020-01";"2020-02";"2020-03";"2020-04";"2020-05";"2020-06";
   "2020-07";"2020-08";"2020-09";"2020-10";"2020-11";"2020-12"].
Proof. vm_compute. reflexivity. Qed.

Example millis_2019_01_01 : Date.millis timeSeriesStart = 1546300800000.
Proof. reflexivity. Qed.

Example monthEnd_december : monthEnd 11 = Date.fromYMD 2020 1 1.
Proof. vm_compute. reflexivity. Qed.

Example selector_optical :
  map (Selector.matches "SR_B.") ["SR_B1"; "SR_B7"; "SR_QA_AEROSOL"; "ST_B10"; "SR_B"]
  = [true; true; false; false; false].
Proof. reflexivity. Qed.

Example selector_thermal :
  map (Selector.matches "ST_B.*") ["ST_B10"; "ST_B"; "ST_QA"; "SR_B4"; "ST_TRAD"]
  = [true; true; false; false; false].
Proof. reflexivity. Qed.

Example sample_june_2019 :
  nth 5 (map (evalS (service := Sample.service) Sample.cat1) (monthlyCO Sample.aoi)) None
  = Some (Some 0.03%Q).
Proof. vm_compute. reflexivity. Qed.

Example scene_rescaled :
  option_map (fun bs => (map fst bs, valueAt "SR_B4" true bs, valueAt "QA_PIXEL" true bs))
             (evalOp (applyScaleFactors Arg) Sample.scene)
  = Some (["SR_B4"; "ST_B10"; "QA_PIXEL"],
          Some (Some (20000 * 0.0000275 + -0.2)%Q), Some (Some 1%Q)).
Proof. reflexivity. Qed.

Example fire_points_layer :
  option_map (fun bs => (valueAt "MaxFRP" true bs, valueAt "MaxFRP" false bs))
             (evalI (service := Sample.service) Sample.modis
                    (modisFire_roi Sample.aoi |> gt 0))
  = Some (Some (Some 1%Q), Some None).
Proof. vm_compute. reflexivity. Qed.

(* ------------------------------------------------------------------------- *)
(** ** Month arithmetic *)

Lemma year_div (month : Z) : year month = month / 12 + 2019.
Proof.
  unfold year, Number.add, Number.floor, Number.divide.
  f_equal. unfold Qfloor, Qdiv, Qmult, Qinv, inject_Z. simpl.
  now rewrite Z.mul_1_r.
Qed.

Lemma monthOfYear_mod (month : Z) :
  0 <= month -> monthOfYear month = month mod 12 + 1.
Proof.
  intros H. unfold monthOfYear, Number.add, Number.mod_.
  rewrite Z.rem_mod_nonneg; lia.
Qed.

Lemma monthOfYear_range (month : Z) :
  0 <= month -> 1 <= monthOfYear month <= 12.
Proof.
  intros H. rewrite monthOfYear_mod by assumption.
  pose proof (Z.mod_pos_bound month 12). lia.
Qed.

Lemma in_months (month : Z) : In month months <-> 0 <= month < 24.
Proof.
  unfold months, List_.sequence. rewrite in_map_iff. split.
  - intros (k & <- & Hk). apply in_seq in Hk. simpl in Hk. lia.
  - intros H. exists (Z.to_nat month). split; [lia|].
    apply in_seq. simpl. lia.
Qed.

(** Advancing a bucket's first day by one calendar month gives the first day
    of the next bucket, for every month index. *)
Lemma monthEnd_next (month : Z) :
  0 <= month -> monthEnd month = monthStart (month + 1).
Proof.
  intros H. unfold monthEnd, monthStart, Date.advance, Date.fromYMD. cbn [Date.year Date.month Date.day].
  rewrite !year_div, !monthOfYear_mod by lia.
  assert (E : (month / 12 + 2019) * 12 + (month mod 12 + 1 - 1) + 1 = month + 1 + 2019 * 12).
  { pose proof (Z.div_mod month 12). lia. }
  rewrite E, Z.div_add, Z_mod_plus_full by lia.
  f_equal.
  apply Z.min_l. unfold Date.days_in_month.
  repeat match goal with |- context [if ?b then _ else _] => destruct b end; lia.
Qed.

(* ------------------------------------------------------------------------- *)
(** ** Decimal formatting *)

(** Linear arithmetic with quotients and remainders by constants. *)
Ltac div_lia := Z.to_euclidean_division_equations; lia.

Lemma digit_value_digit (d : Z) :
  0 <= d < 10 -> digit_value (Number.digit d) = Some d.
Proof.
  intros H.
  assert (C : d = 0 \/ d = 1 \/ d = 2 \/ d = 3 \/ d = 4 \/ d = 5 \/ d = 6
              \/ d = 7 \/ d = 8 \/ d = 9) by lia.
  repeat (destruct C as [-> | C]; [reflexivity|]). now subst.
Qed.

Lemma decimal_four_digits (n : Z) :
  1000 <= n <= 9999 ->
  Number.decimal n =
  String (Number.digit (n / 10 / 10 / 10 mod 10))
    (String (Number.digit (n / 10 / 10 mod 10))
       (String (Number.digit (n / 10 mod 10))
          (String (Number.digit (n mod 10)) ""))).
Proof.
  intros H. unfold Number.decimal.
  assert (L : 9 <= Z.log2 n).
  { change 9 with (Z.log2 1000). apply Z.log2_le_mono. lia. }
  destruct (Z.to_nat (Z.log2 n)) as [|[|[|k]]] eqn:E; try lia.
  cbn [Number.digits].
  assert (N1 : (n / 10 =? 0) = false) by (apply Z.eqb_neq; div_lia).
  assert (N2 : (n / 10 / 10 =? 0) = false) by (apply Z.eqb_neq; div_lia).
  assert (N3 : (n / 10 / 10 / 10 =? 0) = false) by (apply Z.eqb_neq; div_lia).
  assert (N4 : (n / 10 / 10 / 10 / 10 =? 0) = true) by (apply Z.eqb_eq; div_lia).
  now rewrite N1, N2, N3, N4.
Qed.

Lemma format_02d_month (m : Z) :
  1 <= m <= 12 ->
  Number.format_02d m =
  String (Number.digit (m / 10)) (String (Number.digit (m mod 10)) "").
Proof.
  intros H.
  assert (C : m = 1 \/ m = 2 \/ m = 3 \/ m = 4 \/ m = 5 \/ m = 6 \/ m = 7
              \/ m = 8 \/ m = 9 \/ m = 10 \/ m = 11 \/ m = 12) by lia.
  repeat (destruct C as [-> | C]; [reflexivity|]). now subst.
Qed.

(** Every label of a year with four digits reads back as its own year and
    month: the format does not depend on the number of buckets. *)
Lemma parse_label_monthString (month : Z) :
  0 <= month -> year month <= 9999 ->
  parse_label (monthString month) = Some (year month, monthOfYear month).
Proof.
  intros H0 Hy.
  pose proof (monthOfYear_range month H0) as Hm.
  assert (Hy' : 1000 <= year month <= 9999).
  { rewrite year_div in *. pose proof (Z.div_pos month 12). lia. }
  unfold monthString, Number.format_d.
  replace (year month <? 0) with false by (symmetry; apply Z.ltb_ge; lia).
  rewrite (decimal_four_digits _ Hy'), (format_02d_month _ Hm).
  generalize dependent (monthOfYear month). generalize dependent (year month).
  intros y _ Hy m Hm. cbn [append parse_label].
  replace (Ascii.eqb "-" "-") with true by reflexivity.
  rewrite !digit_value_digit by div_lia.
  f_equal. f_equal; div_lia.
Qed.

(* ------------------------------------------------------------------------- *)
(** ** Dictionaries built from sorted keys *)

Lemma set_after_all {A} (k : string) (v : A) (d : Dictionary.t A) :
  Forall (fun kv => String.ltb (fst kv) k = true) d ->
  Dictionary.set k v d = (d ++ [(k, v)])%list.
Proof.
  induction 1 as [|[k' v'] d H _ IH]; [reflexivity|].
  cbn [Dictionary.set app]. unfold String.ltb in H. cbn [fst] in H.
  rewrite String.compare_antisym.
  destruct (String.compare k' k); try discriminate. cbn [CompOpp].
  now rewrite IH.
Qed.

Lemma fromLists_fold {A} (keys : list string) :
  forall (vals : list A) (acc : Dictionary.t A),
    strictly_increasing keys = true ->
    Forall (fun kv => forallb (fun k => String.ltb (fst kv) k) keys = true) acc ->
    fold_left (fun d kv => Dictionary.set (fst kv) (snd kv) d) (combine keys vals) acc
    = (acc ++ combine keys vals)%list.
Proof.
  induction keys as [|k keys IH]; intros vals acc Hs Hacc.
  - cbn. now rewrite app_nil_r.
  - destruct vals as [|v vals]; [cbn; now rewrite app_nil_r|].
    cbn [combine fold_left fst snd].
    cbn [strictly_increasing] in Hs. apply andb_prop in Hs as [Hk Hs].
    rewrite set_after_all.
    + rewrite IH; [now rewrite <- app_assoc | assumption |].
      apply Forall_app. split.
      * eapply Forall_impl; [|exact Hacc]. cbn. intros kv Hkv.
        now apply andb_prop in Hkv.
      * constructor; [exact Hk | constructor].
    + eapply Forall_impl; [|exact Hacc]. cbn. intros kv Hkv.
      now apply andb_prop in Hkv.
Qed.

(** With keys in increasing order, the dictionary lists its entries in the
    order the two lists gave them, every key with its own value. *)
Lemma fromLists_sorted {A} (keys : list string) (vals : list A) :
  strictly_increasing keys = true ->
  Dictionary.fromLists keys vals = combine keys vals.
Proof.
  intros H. unfold Dictionary.fromLists.
  now rewrite fromLists_fold by (assumption || constructor).
Qed.

Lemma monthLabels_increasing : strictly_increasing monthLabels = true.
Proof. vm_compute. reflexivity. Qed.

(** The charted feature collections: one feature per month, in the order of
    the month list, each carrying its label and its own sample unchanged. *)
Lemma co_featureCollection_eq (aoi : Geometry) :
  co_featureCollection aoi =
  map (fun lv => [("month", PString (fst lv)); ("co", PNumber (snd lv))])
      (combine monthLabels (monthlyCO aoi)).
Proof.
  unfold co_featureCollection, co_features, monthlyCO_dict,
    Dictionary.values, Dictionary.map.
  rewrite fromLists_sorted by exact monthLabels_increasing.
  rewrite map_map. reflexivity.
Qed.

Lemma no2_featureCollection_eq (aoi : Geometry) :
  no2_featureCollection aoi =
  map (fun lv => [("month", PString (fst lv)); ("no2", PNumber (snd lv))])
      (combine monthLabels (monthlyNO2 aoi)).
Proof.
  unfold no2_featureCollection, no2_features, monthlyNO2_dict,
    Dictionary.values, Dictionary.map.
  rewrite fromLists_sorted by exact monthLabels_increasing.
  rewrite map_map. reflexivity.
Qed.

(* ------------------------------------------------------------------------- *)
(** ** Bucket boundaries *)

Lemma monthStart_step (month : Z) :
  0 <= month < 24 ->
  Date.millis (monthStart month) < Date.millis (monthStart (month + 1)).
Proof.
  intros H. apply in_months in H.
  assert (A : forallb (fun m => Date.millis (monthStart m)
                                <? Date.millis (monthStart (m + 1))) months = true)
    by (vm_compute; reflexivity).
  rewrite forallb_forall in A. now apply Z.ltb_lt, A.
Qed.

Lemma monthStart_increasing (a b : Z) :
  0 <= a -> a < b -> b <= 24 ->
  Date.millis (monthStart a) < Date.millis (monthStart b).
Proof.
  intros Ha Hab Hb.
  assert (G : forall n : nat, a + 1 + Z.of_nat n <= 24 ->
              Date.millis (monthStart a) < Date.millis (monthStart (a + 1 + Z.of_nat n))).
  { induction n as [|n IH]; intros Hn.
    - rewrite Z.add_0_r. apply monthStart_step. lia.
    - etransitivity; [apply IH; lia|].
      replace (a + 1 + Z.of_nat (S n)) with (a + 1 + Z.of_nat n + 1) by lia.
      apply monthStart_step. lia. }
  replace b with (a + 1 + Z.of_nat (Z.to_nat (b - a - 1))) by lia.
  apply G. lia.
Qed.

Lemma in_bucket_bounds (month time : Z) :
  0 <= month ->
  in_bucket month time = true <->
  Date.millis (monthStart month) <= time < Date.millis (monthStart (month + 1)).
Proof.
  intros H. unfold in_bucket, Date.within.
  rewrite monthEnd_next, andb_true_iff, Z.leb_le, Z.ltb_lt by assumption.
  reflexivity.
Qed.

(** Consecutive buckets leave no gap: any instant from the first bucket's
    start up to the start of bucket [n] lies in one of the buckets before [n]. *)
Lemma buckets_cover (n : nat) (time : Z) :
  Date.millis (monthStart 0) <= time < Date.millis (monthStart (Z.of_nat n)) ->
  exists month, 0 <= month < Z.of_nat n /\ in_bucket month time = true.
Proof.
  induction n as [|n IH]; intros H.
  - cbn [Z.of_nat] in H. lia.
  - destruct (Z_lt_le_dec time (Date.millis (monthStart (Z.of_nat n)))) as [L|L].
    + destruct IH as (m & Hm & Hin); [lia|]. exists m. split; [lia | exact Hin].
    + exists (Z.of_nat n). split; [lia|].
      apply in_bucket_bounds; [lia|].
      replace (Z.of_nat n + 1) with (Z.of_nat (S n)) by lia. lia.
Qed.

Lemma buckets_disjoint (m1 m2 time : Z) :
  0 <= m1 < 24 -> 0 <= m2 < 24 ->
  in_bucket m1 time = true -> in_bucket m2 time = true -> m1 = m2.
Proof.
  intros H1 H2 B1 B2.
  apply in_bucket_bounds in B1; [|lia]. apply in_bucket_bounds in B2; [|lia].
  destruct (Z.lt_trichotomy m1 m2) as [L | [E | L]]; [| exact E |].
  - destruct (Z.eq_dec (m1 + 1) m2) as [<- | N]; [lia|].
    pose proof (monthStart_increasing (m1 + 1) m2). lia.
  - destruct (Z.eq_dec (m2 + 1) m1) as [<- | N]; [lia|].
    pose proof (monthStart_increasing (m2 + 1) m1). lia.
Qed.

Lemma nth_months (i : nat) : (i < 24)%nat -> nth i months 0 = Z.of_nat i.
Proof.
  intros H. do 24 (destruct i as [|i]; [reflexivity|]). lia.
Qed.

(* ------------------------------------------------------------------------- *)
(** ** Claims on the month list, the labels and the buckets *)

(** C3. The monthly aggregator produces exactly 24 buckets, for CO and for
    NO2, in chronological order; the first is labelled "2019-01" and the last
    "2020-12".  The count and the labels come from the index list 0..23, so
    they hold for the window 2019-01-01 to 2020-12-31 as for any other. *)
Theorem monthly_series_24_buckets (aoi : Geometry) :
  List.length months = 24%nat
  /\ List.length (co_featureCollection aoi) = 24%nat
  /\ List.length (no2_featureCollection aoi) = 24%nat
  /\ map (property "month") (co_featureCollection aoi)
     = map (fun l => Some (PString l)) monthLabels
  /\ map (property "month") (no2_featureCollection aoi)
     = map (fun l => Some (PString l)) monthLabels
  /\ hd_error monthLabels = Some "2019-01"
  /\ last monthLabels "" = "2020-12"
  /\ (forall i j : nat, (i < j)%nat /\ (j < 24)%nat ->
        Date.ltb (monthStart (nth i months 0)) (monthStart (nth j months 0)) = true).
Proof.
  assert (Lco : List.length (monthlyCO aoi) = 24%nat)
    by (unfold monthlyCO; now rewrite length_map).
  assert (Lno2 : List.length (monthlyNO2 aoi) = 24%nat)
    by (unfold monthlyNO2; now rewrite length_map).
  rewrite co_featureCollection_eq, no2_featureCollection_eq.
  rewrite !length_map, !length_combine, Lco, Lno2, !map_map.
  repeat apply conj; try reflexivity.
  intros i j [Hij Hj]. rewrite !nth_months by lia.
  apply Z.ltb_lt, monthStart_increasing; lia.
Qed.

(** C4 fails as stated: the script's own window runs from 2019-01-01 to
    2024-12-31, a span of 71 months, and the aggregator produces 24 buckets. *)
Lemma bucket_count_is_not_window_span :
  Date.ltb timeSeriesStart timeSeriesEnd = true
  /\ month_span timeSeriesStart timeSeriesEnd = 71
  /\ Z.of_nat (List.length months) <> month_span timeSeriesStart timeSeriesEnd.
Proof. repeat apply conj; [reflexivity | reflexivity | discriminate]. Qed.

(** C4, amended.  The number of buckets is the constant 24 of the index list
    0..23, whatever the window.  It is the month span counted from the start
    of the first bucket, 2019-01-01, to the exclusive end of the last,
    2021-01-01. *)
Theorem bucket_count_is_24 :
  Z.of_nat (List.length months) = 24
  /\ monthStart (hd 0 months) = Date.fromYMD 2019 1 1
  /\ monthEnd (last months 0) = Date.fromYMD 2021 1 1
  /\ Z.of_nat (List.length months)
     = month_span (monthStart (hd 0 months)) (monthEnd (last months 0)).
Proof. repeat apply conj; reflexivity. Qed.

(** C5. Every label of the monthly series has the form "YYYY-MM": it reads
    back as four digits of the bucket's year, a dash, and the two digits of the
    bucket's month, zero-padded.  The bucket (2019, 12) is labelled "2019-12"
    and the bucket (2020, 1) "2020-01". *)
Theorem label_is_YYYY_MM (month : Z) :
  In month months ->
  String.length (monthString month) = 7%nat
  /\ parse_label (monthString month) = Some (year month, monthOfYear month)
  /\ (year month = 2019 -> monthOfYear month = 12 -> monthString month = "2019-12")
  /\ (year month = 2020 -> monthOfYear month = 1 -> monthString month = "2020-01").
Proof.
  intros H. apply in_months in H.
  assert (P : parse_label (monthString month) = Some (year month, monthOfYear month)).
  { apply parse_label_monthString; [lia|]. rewrite year_div. div_lia. }
  repeat apply conj.
  - destruct (monthString month) as [|? [|? [|? [|? [|? [|? [|? [|? ?]]]]]]]];
      try discriminate P. reflexivity.
  - exact P.
  - intros Hy Hm. unfold monthString. now rewrite Hy, Hm.
  - intros Hy Hm. unfold monthString. now rewrite Hy, Hm.
Qed.

Lemma label_is_YYYY_MM_witness :
  In 11 months
  /\ String.length (monthString 11) = 7%nat
  /\ parse_label (monthString 11) = Some (year 11, monthOfYear 11)
  /\ (year 11 = 2019 -> monthOfYear 11 = 12 -> monthString 11 = "2019-12")
  /\ (year 11 = 2020 -> monthOfYear 11 = 1 -> monthString 11 = "2020-01").
Proof.
  assert (H : In 11 months) by (vm_compute; tauto).
  split; [exact H | exact (label_is_YYYY_MM 11 H)].
Defined.

(** C6 fails as stated: the first instant of 2021 lies inside the script's
    time-series window and inside no bucket. *)
Lemma window_not_covered_by_buckets :
  Date.within timeSeriesStart timeSeriesEnd (Date.millis (Date.fromYMD 2021 1 1)) = true
  /\ ~ (exists month, In month months
                      /\ in_bucket month (Date.millis (Date.fromYMD 2021 1 1)) = true).
Proof.
  split; [reflexivity|].
  intros (m & Hm & Hin).
  assert (A : forallb (fun m => negb (in_bucket m (Date.millis (Date.fromYMD 2021 1 1))))
                      months = true) by (vm_compute; reflexivity).
  rewrite forallb_forall in A. apply A in Hm. rewrite Hin in Hm. discriminate.
Qed.

(** C6, amended.  The 24 buckets are an exact partition of the half-open
    interval from 2019-01-01 to 2021-01-01: each bucket ends one calendar
    month after it starts, on the first day of the next month; it starts
    before it ends; each bucket's end is the next bucket's start; an instant
    lies in the interval exactly when some bucket holds it, and then no other
    bucket does. *)
Theorem buckets_partition_2019_2020 :
  (forall month, In month months ->
     monthEnd month = Date.advance 1 Date.Month (monthStart month)
     /\ month_span (monthStart month) (monthEnd month) = 1
     /\ Date.day (monthEnd month) = 1
     /\ Date.ltb (monthStart month) (monthEnd month) = true)
  /\ (forall month, In month months -> In (month + 1) months ->
        monthEnd month = monthStart (month + 1))
  /\ (forall time,
        Date.within (Date.fromYMD 2019 1 1) (Date.fromYMD 2021 1 1) time = true
        <-> exists month, In month months /\ in_bucket month time = true)
  /\ (forall time m1 m2, In m1 months -> In m2 months ->
        in_bucket m1 time = true -> in_bucket m2 time = true -> m1 = m2).
Proof.
  repeat apply conj.
  - intros m Hm. apply in_months in Hm.
    rewrite monthEnd_next by lia. split; [symmetry; apply monthEnd_next; lia|].
    repeat apply conj.
    + unfold month_span, monthStart, Date.fromYMD. cbn [Date.year Date.month].
      rewrite !year_div, !monthOfYear_mod by lia. div_lia.
    + reflexivity.
    + apply Z.ltb_lt, monthStart_step. lia.
  - intros m Hm _. apply in_months in Hm. apply monthEnd_next. lia.
  - intros time. unfold Date.within. rewrite andb_true_iff, Z.leb_le, Z.ltb_lt.
    change (Date.fromYMD 2019 1 1) with (monthStart 0).
    change (Date.fromYMD 2021 1 1) with (monthStart (Z.of_nat 24)).
    split.
    + intros H. destruct (buckets_cover 24 time H) as (m & Hm & Hin).
      exists m. split; [apply in_months; lia | exact Hin].
    + intros (m & Hm & Hin). apply in_months in Hm.
      apply in_bucket_bounds in Hin; [|lia].
      assert (A : Date.millis (monthStart 0) <= Date.millis (monthStart m)).
      { destruct (Z.eq_dec m 0) as [-> | N]; [lia|].
        pose proof (monthStart_increasing 0 m). lia. }
      assert (B : Date.millis (monthStart (m + 1)) <= Date.millis (monthStart (Z.of_nat 24))).
      { destruct (Z.eq_dec (m + 1) 24) as [-> | N]; [simpl; lia|].
        pose proof (monthStart_increasing (m + 1) 24). simpl Z.of_nat. lia. }
      lia.
  - intros time m1 m2 H1 H2. apply in_months in H1, H2.
    now apply buckets_disjoint.
Qed.

(* ------------------------------------------------------------------------- *)
(** ** Lists, filters and traversals *)

Lemma filter_filter_and {A} (f g : A -> bool) (l : list A) :
  filter f (filter g l) = filter (fun x => f x && g x) l.
Proof.
  induction l as [|a l IH]; [reflexivity|]. cbn [filter].
  destruct (g a); cbn [filter]; rewrite ?andb_true_r, ?andb_false_r;
    destruct (f a); now rewrite IH.
Qed.

(** A filter only sees the part of the list a weaker filter keeps. *)
Lemma filter_through {A} (f g : A -> bool) (l : list A) :
  (forall x, f x = true -> g x = true) ->
  filter f l = filter f (filter g l).
Proof.
  intros H. rewrite filter_filter_and. apply filter_ext.
  intros x. destruct (f x) eqn:E; [|reflexivity]. now rewrite (H x E).
Qed.

Lemma traverse_ext_in {A B} (f g : A -> option B) (l : list A) :
  (forall a, In a l -> f a = g a) -> traverse f l = traverse g l.
Proof.
  induction l as [|a l IH]; intros H; [reflexivity|].
  cbn [traverse]. rewrite (H a (or_introl eq_refl)), IH; [reflexivity|].
  intros b Hb. apply H. now right.
Qed.

(** Every bucket lies inside the window the collections are first filtered
    to, and ends by 2021-01-01. *)
Lemma bucket_in_window (month time : Z) :
  In month months -> in_bucket month time = true ->
  Date.within timeSeriesStart timeSeriesEnd time = true
  /\ (time <? Date.millis (Date.fromYMD 2021 1 1)) = true.
Proof.
  intros Hm Hin.
  assert (A : forallb (fun m =>
                (Date.millis timeSeriesStart <=? Date.millis (monthStart m))
                && (Date.millis (monthEnd m) <=? Date.millis (Date.fromYMD 2021 1 1)))
              months = true) by (vm_compute; reflexivity).
  rewrite forallb_forall in A. specialize (A month Hm).
  assert (B : Date.millis (Date.fromYMD 2021 1 1) < Date.millis timeSeriesEnd)
    by reflexivity.
  unfold in_bucket, Date.within in *.
  rewrite !andb_true_iff, ?Z.leb_le, ?Z.ltb_lt in *. lia.
Qed.

(* ------------------------------------------------------------------------- *)
(** ** The monthly aggregator over a catalogue *)

Section MonthlyAggregator.

Context {Pixel : Type} {service : Service Pixel}.
Variable aoi : Geometry.

(** The stack of one bucket: the three filters of the script select the
    images of the source that fall in the bucket and meet the region. *)
Lemma evalC_bucket (cat : Catalog Pixel) (id : string) (month : Z) :
  In month months ->
  evalC cat (Load id |> filterBounds aoi
                     |> filterDate timeSeriesStart timeSeriesEnd
                     |> filterDate (monthStart month) (monthEnd month))
  = Some (filter (fun im => Date.within (monthStart month) (monthEnd month)
                              (time_start im)
                            && intersects aoi (footprint im))
                 (cat id)).
Proof.
  intros Hm. cbn [evalC option_map]. f_equal.
  rewrite !filter_filter_and. apply filter_ext. intros im.
  destruct (Date.within (monthStart month) (monthEnd month) (time_start im)) eqn:E;
    [|reflexivity].
  destruct (bucket_in_window month _ Hm E) as [W _]. now rewrite W.
Qed.

Lemma evalS_monthlyCO (cat : Catalog Pixel) (month : Z) :
  In month months ->
  evalS cat
    (co_collection aoi |> filterDate (monthStart month) (monthEnd month)
       |> mean |> select "CO_column_number_density"
       |> reduceRegion {| reducer := Mean; geometry_ := aoi; scale := 5000;
                          bestEffort := true; maxPixels := 100000000 |}
       |> get "CO_column_number_density")
  = aggregate "CO_column_number_density" "COPERNICUS/S5P/OFFL/L3_CO" aoi
              (monthStart month, monthEnd month) cat.
Proof.
  intros Hm. unfold aggregate, evalS, evalD, mean, co_collection, co.
  cbn [evalI fst snd]. rewrite (evalC_bucket cat _ month Hm).
  cbn [option_map]. unfold bind at 2.
  destruct (selectBands _ _); reflexivity.
Qed.

Lemma evalS_monthlyNO2 (cat : Catalog Pixel) (month : Z) :
  In month months ->
  evalS cat
    (no2_collection aoi |> filterDate (monthStart month) (monthEnd month)
       |> mean |> select "NO2_column_number_density"
       |> reduceRegion {| reducer := Mean; geometry_ := aoi; scale := 5000;
                          bestEffort := true; maxPixels := 100000000 |}
       |> get "NO2_column_number_density")
  = aggregate "NO2_column_number_density" "COPERNICUS/S5P/OFFL/L3_NO2" aoi
              (monthStart month, monthEnd month) cat.
Proof.
  intros Hm. unfold aggregate, evalS, evalD, mean, no2_collection, no2.
  cbn [evalI fst snd]. rewrite (evalC_bucket cat _ month Hm).
  cbn [option_map]. unfold bind at 2.
  destruct (selectBands _ _); reflexivity.
Qed.

(** C7. Every monthly sample, for CO and for NO2, is computed from its own
    bucket alone: the source collection restricted to the bucket's window
    and the region, a temporal mean composite, the requested band, and an
    areal mean over the region at a scale of 5000 m with maxPixels 1e8 and
    bestEffort set. *)
Theorem monthly_samples_are_aggregates (cat : Catalog Pixel) :
  map (evalS cat) (monthlyCO aoi)
  = map (fun month =>
           aggregate "CO_column_number_density" "COPERNICUS/S5P/OFFL/L3_CO" aoi
                     (monthStart month, monthEnd month) cat) months
  /\ map (evalS cat) (monthlyNO2 aoi)
     = map (fun month =>
              aggregate "NO2_column_number_density" "COPERNICUS/S5P/OFFL/L3_NO2" aoi
                        (monthStart month, monthEnd month) cat) months.
Proof.
  unfold monthlyCO, monthlyNO2. rewrite !map_map. split; apply map_ext_in.
  - intros month Hm. now apply evalS_monthlyCO.
  - intros month Hm. now apply evalS_monthlyNO2.
Qed.

(** An aggregate reads the catalogue only below the end of its bucket. *)
Lemma aggregate_agree (cat1 cat2 : Catalog Pixel) (band id : string) (month : Z) :
  agree_before (Date.fromYMD 2021 1 1) cat1 cat2 ->
  In month months ->
  aggregate band id aoi (monthStart month, monthEnd month) cat1
  = aggregate band id aoi (monthStart month, monthEnd month) cat2.
Proof.
  intros Hag Hm. unfold aggregate. cbn [fst snd].
  set (P := fun im : ImageData Pixel =>
             Date.within (monthStart month) (monthEnd month) (time_start im)
                      && intersects aoi (footprint im)).
  set (C := fun im : ImageData Pixel =>
             time_start im <? Date.millis (Date.fromYMD 2021 1 1)).
  assert (PC : forall im, P im = true -> C im = true).
  { intros im HP. unfold P in HP. apply andb_prop in HP as [HP _].
    now destruct (bucket_in_window month _ Hm HP). }
  rewrite (filter_through P C (cat1 id) PC), (filter_through P C (cat2 id) PC).
  unfold C. now rewrite (Hag id).
Qed.

Lemma monthlyCO_agree (cat1 cat2 : Catalog Pixel) (s : Scalar) :
  agree_before (Date.fromYMD 2021 1 1) cat1 cat2 ->
  In s (monthlyCO aoi) -> evalS cat1 s = evalS cat2 s.
Proof.
  intros Hag Hs. unfold monthlyCO in Hs. apply in_map_iff in Hs as (m & <- & Hm).
  rewrite !(evalS_monthlyCO _ m Hm). now apply aggregate_agree.
Qed.

Lemma monthlyNO2_agree (cat1 cat2 : Catalog Pixel) (s : Scalar) :
  agree_before (Date.fromYMD 2021 1 1) cat1 cat2 ->
  In s (monthlyNO2 aoi) -> evalS cat1 s = evalS cat2 s.
Proof.
  intros Hag Hs. unfold monthlyNO2 in Hs. apply in_map_iff in Hs as (m & <- & Hm).
  rewrite !(evalS_monthlyNO2 _ m Hm). now apply aggregate_agree.
Qed.

Lemma features_agree (cat1 cat2 : Catalog Pixel) (key : string)
      (labels : list string) (samples : list Scalar) :
  (forall s, In s samples -> evalS cat1 s = evalS cat2 s) ->
  evalFeatures cat1
    (map (fun lv => [("month", PString (fst lv)); (key, PNumber (snd lv))])
         (combine labels samples))
  = evalFeatures cat2
      (map (fun lv => [("month", PString (fst lv)); (key, PNumber (snd lv))])
           (combine labels samples)).
Proof.
  intros H. unfold evalFeatures. apply traverse_ext_in.
  intros f Hf. apply in_map_iff in Hf as ([l v] & <- & Hlv).
  apply in_combine_r in Hlv. cbn [fst snd traverse evalProperty].
  now rewrite (H v Hlv).
Qed.

(** C10. The collections are first filtered to 2019-01-01..2024-12-31, yet
    each monthly sample depends only on imagery of its own bucket.  Two
    catalogues that hold the same imagery dated before 2021-01-01 give the
    same samples and the same charted series, for CO and for NO2, whatever
    they hold from 2021-01-01 on. *)
Theorem samples_ignore_imagery_from_2021 (cat1 cat2 : Catalog Pixel) :
  agree_before (Date.fromYMD 2021 1 1) cat1 cat2 ->
  map (evalS cat1) (monthlyCO aoi) = map (evalS cat2) (monthlyCO aoi)
  /\ map (evalS cat1) (monthlyNO2 aoi) = map (evalS cat2) (monthlyNO2 aoi)
  /\ evalFeatures cat1 (co_featureCollection aoi)
     = evalFeatures cat2 (co_featureCollection aoi)
  /\ evalFeatures cat1 (no2_featureCollection aoi)
     = evalFeatures cat2 (no2_featureCollection aoi).
Proof.
  intros Hag. repeat apply conj.
  - apply map_ext_in. intros s Hs. now apply monthlyCO_agree.
  - apply map_ext_in. intros s Hs. now apply monthlyNO2_agree.
  - rewrite co_featureCollection_eq. apply features_agree.
    intros s Hs. now apply monthlyCO_agree.
  - rewrite no2_featureCollection_eq. apply features_agree.
    intros s Hs. now apply monthlyNO2_agree.
Qed.

End MonthlyAggregator.

(* ------------------------------------------------------------------------- *)
(** ** From samples to the charted features *)

Section Features.

Context {Pixel : Type} {service : Service Pixel}.

Lemma evalFeatures_combine (cat : Catalog Pixel) (key : string)
      (labels : list string) :
  forall samples : list Scalar,
    List.length labels = List.length samples ->
    evalFeatures cat
      (map (fun lv => [("month", PString (fst lv)); (key, PNumber (snd lv))])
           (combine labels samples))
    = option_map
        (fun values =>
           map (fun lv => [("month", PString (fst lv)); (key, PNumber (snd lv))])
               (combine labels values))
        (traverse (evalS cat) samples).
Proof.
  unfold evalFeatures.
  induction labels as [|l labels IH]; intros [|s samples] Hlen;
    try discriminate Hlen; [reflexivity|].
  cbn [combine map traverse fst snd evalProperty bind option_map].
  injection Hlen as Hlen. rewrite (IH samples Hlen).
  destruct (evalS cat s) as [x|]; [|reflexivity]. cbn [bind option_map].
  destruct (traverse (evalS cat) samples); reflexivity.
Qed.

(** When every monthly request has a result, the chart receives one feature
    per month, in the order of the months, each holding its label and the
    sample as the reduction gave it: a number stays that number and a null
    stays null. *)
Lemma co_features_carry_samples (cat : Catalog Pixel) (aoi : Geometry) :
  evalFeatures cat (co_featureCollection aoi)
  = option_map
      (fun values =>
         map (fun lv => [("month", PString (fst lv)); ("co", PNumber (snd lv))])
             (combine monthLabels values))
      (traverse (evalS cat) (monthlyCO aoi)).
Proof.
  rewrite co_featureCollection_eq. apply evalFeatures_combine.
  unfold monthLabels, monthlyCO. now rewrite !length_map.
Qed.

Lemma no2_features_carry_samples (cat : Catalog Pixel) (aoi : Geometry) :
  evalFeatures cat (no2_featureCollection aoi)
  = option_map
      (fun values =>
         map (fun lv => [("month", PString (fst lv)); ("no2", PNumber (snd lv))])
             (combine monthLabels values))
      (traverse (evalS cat) (monthlyNO2 aoi)).
Proof.
  rewrite no2_featureCollection_eq. apply evalFeatures_combine.
  unfold monthLabels, monthlyNO2. now rewrite !length_map.
Qed.

End Features.

(* ------------------------------------------------------------------------- *)
(** ** Bands: lookups through the band operations *)

Section BandLemmas.

Context {V Pixel : Type}.

Lemma lookup_map_values {A B} (f : string -> A -> B) (k : string)
      (l : list (string * A)) :
  lookup k (map (fun b => (fst b, f (fst b) (snd b))) l)
  = option_map (f k) (lookup k l).
Proof.
  induction l as [|[k' v] l IH]; [reflexivity|].
  cbn [map lookup fst snd]. destruct (String.eqb k k') eqn:E; [|exact IH].
  apply String.eqb_eq in E. now subst.
Qed.

Lemma lookup_filter_key {A} (P : string -> bool) (k : string)
      (l : list (string * A)) :
  lookup k (filter (fun b => P (fst b)) l)
  = if P k then lookup k l else None.
Proof.
  induction l as [|[k' v] l IH]; [now destruct (P k)|].
  cbn [filter lookup fst].
  destruct (String.eqb k k') eqn:E.
  - apply String.eqb_eq in E. subst k'.
    destruct (P k) eqn:Pk; [cbn [lookup]; now rewrite String.eqb_refl|].
    rewrite IH. now rewrite ?Pk.
  - destruct (P k'); [cbn [lookup]; now rewrite E|exact IH].
Qed.

Lemma lookup_app {A} (k : string) (l1 l2 : list (string * A)) :
  lookup k (l1 ++ l2)%list
  = match lookup k l1 with Some v => Some v | None => lookup k l2 end.
Proof.
  induction l1 as [|[k' v] l1 IH]; [reflexivity|].
  cbn [app lookup]. now destruct (String.eqb k k').
Qed.

Lemma lookup_selectBands (selector k : string) (bs sel : BandsOf V Pixel) :
  selectBands selector bs = Some sel ->
  lookup k sel = if Selector.matches selector k then lookup k bs else None.
Proof.
  unfold selectBands. intros H.
  rewrite <- (lookup_filter_key (Selector.matches selector)).
  destruct (filter _ bs); [discriminate | now inversion H].
Qed.

(** A selector that matches a band of the image has a result. *)
Lemma selectBands_some (selector k : string) (bs : BandsOf V Pixel) :
  Selector.matches selector k = true -> hasBand k bs = true ->
  exists sel, selectBands selector bs = Some sel.
Proof.
  intros Hm Hk. unfold selectBands.
  destruct (filter _ bs) as [|b l] eqn:E; [|now eexists].
  pose proof (lookup_filter_key (Selector.matches selector) k bs) as L.
  rewrite E, Hm in L. unfold hasBand in Hk. rewrite <- L in Hk. discriminate.
Qed.

Lemma lookup_mapValues (f : V -> V) (k : string) (bs : BandsOf V Pixel) :
  lookup k (mapValues f bs)
  = option_map (fun r p => option_map f (r p)) (lookup k bs).
Proof.
  unfold mapValues.
  exact (lookup_map_values (fun _ r p => option_map f (r p)) k bs).
Qed.

Lemma lookup_overwritten (k : string) (src dst : BandsOf V Pixel) :
  lookup k (map (fun b => match lookup (fst b) src with
                          | Some r => (fst b, r)
                          | None => b
                          end) dst)
  = option_map (fun r => match lookup k src with Some r' => r' | None => r end)
               (lookup k dst).
Proof.
  induction dst as [|[k' r] dst IH]; [reflexivity|].
  cbn [map lookup fst].
  destruct (String.eqb k k') eqn:E.
  - apply String.eqb_eq in E. subst k'.
    destruct (lookup k src); cbn [lookup]; now rewrite String.eqb_refl.
  - destruct (lookup k' src); cbn [lookup]; now rewrite E.
Qed.

(** Overwriting: a band of the destination is replaced when the source has
    one of that name; other bands of the source are added. *)
Lemma lookup_addBands (k : string) (src dst : BandsOf V Pixel) :
  lookup k (addBands src true dst)
  = match lookup k dst with
    | Some r => Some match lookup k src with Some r' => r' | None => r end
    | None => lookup k src
    end.
Proof.
  unfold addBands. rewrite lookup_app, lookup_overwritten.
  destruct (lookup k dst) eqn:E; [reflexivity|]. cbn [option_map].
  rewrite (lookup_filter_key (fun k => negb (hasBand k dst))).
  unfold hasBand. now rewrite E.
Qed.

Lemma run_literal (c : ascii) (its : list Selector.item) (s : string) :
  Selector.run (Selector.One (Selector.Lit c) :: its) s = true ->
  exists s', s = String c s' /\ Selector.run its s' = true.
Proof.
  destruct s as [|c' s']; [discriminate|]. cbn [Selector.run Selector.accepts].
  intros H. apply andb_prop in H as [H1 H2]. apply Ascii.eqb_eq in H1.
  subst c'. now exists s'.
Qed.

Lemma optical_is_not_thermal (k : string) :
  Selector.matches "SR_B." k = true -> Selector.matches "ST_B.*" k = false.
Proof.
  unfold Selector.matches.
  change (Selector.parse "SR_B.")
    with [Selector.One (Selector.Lit "S"); Selector.One (Selector.Lit "R");
          Selector.One (Selector.Lit "_"); Selector.One (Selector.Lit "B");
          Selector.One Selector.Any].
  intros H.
  apply run_literal in H as (k1 & -> & H).
  apply run_literal in H as (k2 & -> & _).
  reflexivity.
Qed.

Lemma thermal_is_not_optical (k : string) :
  Selector.matches "ST_B.*" k = true -> Selector.matches "SR_B." k = false.
Proof.
  intros H. destruct (Selector.matches "SR_B." k) eqn:E; [|reflexivity].
  apply optical_is_not_thermal in E. congruence.
Qed.

End BandLemmas.

(* ------------------------------------------------------------------------- *)
(** ** The period compositor *)

Section PeriodCompositor.

Context {Pixel : Type} {service : Service Pixel}.

Lemma lookup_clipBands (g : Geometry) (k : string) (bs : Bands Pixel) :
  lookup k (clipBands g bs)
  = option_map (fun r p => if contains g p then r p else None) (lookup k bs).
Proof.
  exact (lookup_map_values (fun _ r p => if contains g p then r p else None) k bs).
Qed.

Lemma lookup_reduceImages (r : Reducer) (im : ImageData Pixel)
      (rest : list (ImageData Pixel)) (k : string) :
  lookup k (reduceImages r (im :: rest))
  = option_map (fun _ p => reduceValues r (stack (im :: rest) k p))
               (lookup k (bands im)).
Proof.
  exact (lookup_map_values
           (fun k (_ : Raster Pixel) p => reduceValues r (stack (im :: rest) k p))
           k (bands im)).
Qed.

(** The maximum over a stack of one image is that image, band by band and
    pixel by pixel; clipping keeps the pixels of the region. *)
Lemma max_of_single_image (g : Geometry) (im : ImageData Pixel)
      (b : string) (p : Pixel) :
  contains g p = true ->
  valueAt b p (clipBands g (reduceImages Max [im])) = valueAt b p (bands im).
Proof.
  intros Hp. unfold valueAt.
  rewrite lookup_clipBands, lookup_reduceImages.
  destruct (lookup b (bands im)) as [r|] eqn:E; [|reflexivity].
  cbn [option_map]. rewrite Hp. unfold stack. cbn [flat_map]. rewrite E.
  now destruct (r p).
Qed.

(** C9. When the fire-period stack behind the MODIS composite holds exactly
    one image, the max composite clipped to the region equals that image's
    selected band at every pixel inside the region, exactly. *)
Theorem max_composite_of_single_image
        (cat : Catalog Pixel) (aoi : Geometry) (im : ImageData Pixel) :
  evalC cat (Load "MODIS/006/MOD14A1"
               |> filterDate fireStart fireEnd
               |> selectC "MaxFRP"
               |> filterBounds (roi aoi)) = Some [im] ->
  temporalReducer (modisFire_roi aoi) = Max
  /\ exists composite,
       evalI cat (modisFire_roi aoi) = Some composite
       /\ forall b p, contains (roi aoi) p = true ->
                      valueAt b p composite = valueAt b p (bands im).
Proof.
  intros H. split; [reflexivity|].
  exists (clipBands (roi aoi) (reduceImages Max [im])). split.
  - unfold modisFire_roi, modisFire, max. cbn [evalI]. now rewrite H.
  - intros b p Hp. now apply max_of_single_image.
Qed.

End PeriodCompositor.

Lemma max_composite_of_single_image_witness :
  evalC (service := Sample.service) Sample.modis
        (Load "MODIS/006/MOD14A1"
           |> filterDate fireStart fireEnd
           |> selectC "MaxFRP"
           |> filterBounds (roi Sample.aoi)) = Some [Sample.fire_image_frp]
  /\ temporalReducer (modisFire_roi Sample.aoi) = Max
  /\ exists composite,
       evalI (service := Sample.service) Sample.modis (modisFire_roi Sample.aoi)
       = Some composite
       /\ forall b p, contains (Service := Sample.service) (roi Sample.aoi) p = true ->
                      valueAt b p composite = valueAt b p (bands Sample.fire_image_frp).
Proof.
  split; [reflexivity|].
  apply (max_composite_of_single_image (service := Sample.service)
           Sample.modis Sample.aoi Sample.fire_image_frp).
  reflexivity.
Defined.

(* ------------------------------------------------------------------------- *)
(** ** The rescale in binary64 *)

(** C8 fails as stated.  In binary64 the optical band of raw value 20000
    comes out as 0.35000000000000003, which is neither the binary64 number
    nearest to 0.35 nor the rational 0.35; and on an image without a thermal
    band [applyScaleFactors] has no result at all. *)
Lemma rescaled_20000_is_not_exactly_0_35 :
  (exists v q,
     option_map (valueAt "SR_B4" true) (evalOp (applyScaleFactors Arg) scene64)
     = Some (Some (Some v))
     /\ PrimFloat.eqb v (Binary64.of_Q 0.35) = false
     /\ Binary64.to_Q v = Some q
     /\ ~ (q == 0.35)%Q)
  /\ evalOp (applyScaleFactors Arg) optical_only64 = None.
Proof.
  split; [|reflexivity].
  eexists. eexists. split; [vm_compute; reflexivity|].
  split; [reflexivity|]. split; [vm_compute; reflexivity|].
  intros H. vm_compute in H. discriminate H.
Qed.

(** C8, amended.  On an image that has a thermal band as well,
    [applyScaleFactors] turns an optical band of constant raw value 20000
    into the constant 20000 * 0.0000275 + (-0.2) as binary64 computes it:
    the number next above the binary64 0.35, less than 1e-16 away from 0.35.
    A thermal band of raw value [raw] becomes raw * 0.00341802 + 149.0, and
    the two pairs of constants differ. *)
Theorem optical_rescale_of_20000_binary64 {Pixel : Type}
        (image : BandsOf Binary64.t Pixel) (b t : string)
        (r : RasterOf Binary64.t Pixel) :
  Selector.matches "SR_B." b = true ->
  lookup b image = Some r ->
  (forall p, r p = Some (Binary64.of_Z 20000)) ->
  Selector.matches "ST_B.*" t = true ->
  hasBand t image = true ->
  exists scaled v q,
    evalOp (applyScaleFactors Arg) image = Some scaled
    /\ (forall p, valueAt b p scaled = Some (Some v))
    /\ v = Binary64.add (Binary64.multiply (Binary64.of_Z 20000) 0.0000275%Q) (-0.2)%Q
    /\ v = PrimFloat.next_up (Binary64.of_Q 0.35)
    /\ Binary64.to_Q v = Some q
    /\ (Qabs (q - 0.35) < 1 # 10000000000000000)%Q
    /\ (forall rt p raw,
          lookup t image = Some rt -> rt p = Some raw ->
          valueAt t p scaled
          = Some (Some (Binary64.add (Binary64.multiply raw 0.00341802%Q) 149.0%Q)))
    /\ PrimFloat.eqb (Binary64.of_Q 0.0000275) (Binary64.of_Q 0.00341802) = false
    /\ PrimFloat.eqb (Binary64.of_Q (-0.2)) (Binary64.of_Q 149.0) = false.
Proof.
  intros Hb Lb Hr Ht Lt.
  assert (Bb : hasBand b image = true) by (unfold hasBand; now rewrite Lb).
  destruct (selectBands_some "SR_B." b image Hb Bb) as [optical EO].
  destruct (selectBands_some "ST_B.*" t image Ht Lt) as [thermal ET].
  unfold applyScaleFactors. cbn [evalOp bind option_map].
  rewrite EO, ET. cbn [bind option_map].
  eexists. exists (Binary64.add (Binary64.multiply (Binary64.of_Z 20000) 0.0000275%Q) (-0.2)%Q).
  eexists. split; [reflexivity|].
  repeat apply conj.
  - intros p. unfold valueAt.
    rewrite !lookup_addBands, !lookup_mapValues.
    rewrite (lookup_selectBands _ b _ _ EO), (lookup_selectBands _ b _ _ ET).
    rewrite Hb, (optical_is_not_thermal b Hb), Lb. cbn [option_map].
    rewrite Hr. reflexivity.
  - reflexivity.
  - reflexivity.
  - vm_compute. reflexivity.
  - reflexivity.
  - intros rt p raw Lrt Hraw. unfold valueAt.
    rewrite !lookup_addBands, !lookup_mapValues.
    rewrite (lookup_selectBands _ t _ _ EO), (lookup_selectBands _ t _ _ ET).
    rewrite Ht, (thermal_is_not_optical t Ht), Lrt. cbn [option_map].
    now rewrite Hraw.
  - reflexivity.
  - reflexivity.
Qed.

Lemma optical_rescale_of_20000_binary64_witness :
  Selector.matches "SR_B." "SR_B4" = true
  /\ lookup "SR_B4" scene64 = Some (const64 20000)
  /\ (forall p, const64 20000 p = Some (Binary64.of_Z 20000))
  /\ Selector.matches "ST_B.*" "ST_B10" = true
  /\ hasBand "ST_B10" scene64 = true
  /\ exists scaled v q,
       evalOp (applyScaleFactors Arg) scene64 = Some scaled
       /\ (forall p, valueAt "SR_B4" p scaled = Some (Some v))
       /\ v = Binary64.add (Binary64.multiply (Binary64.of_Z 20000) 0.0000275%Q) (-0.2)%Q
       /\ v = PrimFloat.next_up (Binary64.of_Q 0.35)
       /\ Binary64.to_Q v = Some q
       /\ (Qabs (q - 0.35) < 1 # 10000000000000000)%Q
       /\ (forall rt p raw,
             lookup "ST_B10" scene64 = Some rt -> rt p = Some raw ->
             valueAt "ST_B10" p scaled
             = Some (Some (Binary64.add (Binary64.multiply raw 0.00341802%Q) 149.0%Q)))
       /\ PrimFloat.eqb (Binary64.of_Q 0.0000275) (Binary64.of_Q 0.00341802) = false
       /\ PrimFloat.eqb (Binary64.of_Q (-0.2)) (Binary64.of_Q 149.0) = false.
Proof.
  repeat apply conj; try reflexivity.
  apply (optical_rescale_of_20000_binary64 scene64 "SR_B4" "ST_B10" (const64 20000));
    reflexivity.
Defined.

Lemma samples_ignore_imagery_from_2021_witness :
  agree_before (Date.fromYMD 2021 1 1) Sample.cat1 Sample.cat2
  /\ map (evalS (service := Sample.service) Sample.cat1) (monthlyCO Sample.aoi)
     = map (evalS (service := Sample.service) Sample.cat2) (monthlyCO Sample.aoi)
  /\ map (evalS (service := Sample.service) Sample.cat1) (monthlyNO2 Sample.aoi)
     = map (evalS (service := Sample.service) Sample.cat2) (monthlyNO2 Sample.aoi)
  /\ evalFeatures (service := Sample.service) Sample.cat1 (co_featureCollection Sample.aoi)
     = evalFeatures (service := Sample.service) Sample.cat2 (co_featureCollection Sample.aoi)
  /\ evalFeatures (service := Sample.service) Sample.cat1 (no2_featureCollection Sample.aoi)
     = evalFeatures (service := Sample.service) Sample.cat2 (no2_featureCollection Sample.aoi).
Proof.
  assert (H : agree_before (Date.fromYMD 2021 1 1) Sample.cat1 Sample.cat2)
    by (intros id; reflexivity).
  split; [exact H|].
  exact (samples_ignore_imagery_from_2021 (service := Sample.service)
           Sample.aoi Sample.cat1 Sample.cat2 H).
Defined.

(* ------------------------------------------------------------------------- *)
(** ** Temporal reducers of the map layers *)

(** C2 fails as stated: both Landsat layers are median composites.  On three
    scenes whose red band scales to 0.075, 0.075 and 0.9 the layer shows
    0.075, and the mean is 0.35. *)
Lemma landsat_composite_is_not_a_mean :
  temporalReducer (eeObject (landsat_rgb Sample.aoi)) <> Mean
  /\ temporalReducer (eeObject (landsat_false_color Sample.aoi)) <> Mean
  /\ exists v w,
       option_map (valueAt "SR_B4" true)
         (evalI (service := Sample.service) Sample.landsat
                (eeObject (landsat_rgb Sample.aoi))) = Some (Some (Some v))
       /\ option_map (valueAt "SR_B4" true)
            (evalI (service := Sample.service) Sample.landsat
                   (landsatFireScaled Sample.aoi |> mean |> clip (roi Sample.aoi)))
          = Some (Some (Some w))
       /\ (v == 0.075)%Q /\ (w == 0.35)%Q /\ ~ (v == w)%Q.
Proof.
  split; [discriminate|]. split; [discriminate|].
  eexists. eexists. split; [vm_compute; reflexivity|].
  split; [vm_compute; reflexivity|].
  repeat apply conj; try reflexivity. discriminate.
Qed.

(** C2, amended.  The period compositor uses three temporal reducers, one
    per kind of source: the mean for the Sentinel-5P trace-gas columns and
    aerosol index, the median for the Landsat surface reflectance, the
    maximum for the MODIS fire radiative power. *)
Theorem layer_reducers (aoi : Geometry) :
  map (fun l => (sourceI (eeObject l), temporalReducer (eeObject l))) (layers aoi)
  = [ ("COPERNICUS/S5P/NRTI/L3_CO", Mean);
      ("COPERNICUS/S5P/NRTI/L3_NO2", Mean);
      ("COPERNICUS/S5P/OFFL/L3_AER_AI", Mean);
      ("LANDSAT/LC08/C02/T1_L2", Median);
      ("LANDSAT/LC08/C02/T1_L2", Median);
      ("MODIS/006/MOD14A1", Max);
      ("MODIS/006/MOD14A1", Max) ].
Proof. reflexivity. Qed.

(* ------------------------------------------------------------------------- *)
(** ** More on the month index and the labels *)

(** X1. For a month index up to the year 9999, the year and the month of
    the year give the index back: the quotient by 12 followed by [floor] is
    the integer quotient, and the month lies in 1..12.  Within this range the
    binary64 quotient of the service rounds to the same integer. *)
Theorem month_index_round_trip (month : Z) :
  0 <= month -> year month <= 9999 ->
  year month = 2019 + month / 12
  /\ 1 <= monthOfYear month <= 12
  /\ (year month - 2019) * 12 + (monthOfYear month - 1) = month.
Proof.
  intros H _. rewrite year_div, monthOfYear_mod by assumption.
  repeat apply conj; div_lia.
Qed.

Lemma month_index_round_trip_witness :
  0 <= 23 /\ year 23 <= 9999
  /\ year 23 = 2019 + 23 / 12
  /\ 1 <= monthOfYear 23 <= 12
  /\ (year 23 - 2019) * 12 + (monthOfYear 23 - 1) = 23.
Proof.
  assert (Y : year 23 <= 9999) by (vm_compute; discriminate).
  split; [lia|]. split; [exact Y|].
  apply (month_index_round_trip 23); [lia | exact Y].
Defined.

Lemma month_of_fields (a b : Z) :
  0 <= a -> 0 <= b ->
  year a = year b -> monthOfYear a = monthOfYear b -> a = b.
Proof.
  intros Ha Hb. rewrite !year_div, !monthOfYear_mod by assumption. div_lia.
Qed.

(** X2. Two month indices with the same label are the same index, for every
    year of four digits: no two buckets share a dictionary key. *)
Theorem labels_are_distinct (a b : Z) :
  0 <= a -> 0 <= b -> year a <= 9999 -> year b <= 9999 ->
  monthString a = monthString b -> a = b.
Proof.
  intros Ha Hb Ya Yb E.
  pose proof (parse_label_monthString a Ha Ya) as Pa.
  pose proof (parse_label_monthString b Hb Yb) as Pb.
  rewrite E, Pb in Pa. injection Pa as Ey Em.
  now apply month_of_fields.
Qed.

Lemma labels_are_distinct_witness :
  0 <= 13 /\ 0 <= 13 /\ year 13 <= 9999 /\ year 13 <= 9999
  /\ monthString 13 = monthString 13 /\ 13 = 13.
Proof.
  assert (Y : year 13 <= 9999) by (vm_compute; discriminate).
  split; [lia|]. split; [lia|]. split; [exact Y|]. split; [exact Y|].
  split; [reflexivity|].
  apply (labels_are_distinct 13 13); try lia; try exact Y; reflexivity.
Defined.

Lemma compare_digit (x y : Z) :
  0 <= x < 10 -> 0 <= y < 10 ->
  Ascii.compare (Number.digit x) (Number.digit y) = (x ?= y).
Proof.
  intros Hx Hy.
  assert (Cx : x = 0 \/ x = 1 \/ x = 2 \/ x = 3 \/ x = 4 \/ x = 5 \/ x = 6
               \/ x = 7 \/ x = 8 \/ x = 9) by lia.
  assert (Cy : y = 0 \/ y = 1 \/ y = 2 \/ y = 3 \/ y = 4 \/ y = 5 \/ y = 6
               \/ y = 7 \/ y = 8 \/ y = 9) by lia.
  repeat (destruct Cx as [-> | Cx]);
    repeat (destruct Cy as [-> | Cy]); subst; reflexivity.
Qed.

(** A label spelled out digit by digit. *)
Lemma monthString_digits (month : Z) :
  0 <= month -> year month <= 9999 ->
  exists d3 d2 d1 d0 e f,
    monthString month
    = String (Number.digit d3) (String (Number.digit d2) (String (Number.digit d1)
        (String (Number.digit d0) (String "-"
           (String (Number.digit e) (String (Number.digit f) ""))))))
    /\ (0 <= d3 < 10 /\ 0 <= d2 < 10 /\ 0 <= d1 < 10 /\ 0 <= d0 < 10)
    /\ (0 <= e < 10 /\ 0 <= f < 10)
    /\ year month = 1000 * d3 + 100 * d2 + 10 * d1 + d0
    /\ monthOfYear month = 10 * e + f.
Proof.
  intros H0 Hy.
  pose proof (monthOfYear_range month H0) as Hm.
  assert (Hy' : 1000 <= year month <= 9999).
  { rewrite year_div in *. pose proof (Z.div_pos month 12). lia. }
  unfold monthString, Number.format_d.
  replace (year month <? 0) with false by (symmetry; apply Z.ltb_ge; lia).
  rewrite (decimal_four_digits _ Hy'), (format_02d_month _ Hm).
  generalize dependent (monthOfYear month). generalize dependent (year month).
  intros y _ Hy m Hm.
  exists (y / 10 / 10 / 10 mod 10), (y / 10 / 10 mod 10), (y / 10 mod 10),
    (y mod 10), (m / 10), (m mod 10).
  split; [reflexivity|]. repeat apply conj; div_lia.
Qed.

(** X3. Labels sort as time runs: for month indices a < b, up to the year
    9999, the label of a comes strictly before the label of b in the order of
    strings.  A dictionary that keeps its keys sorted therefore lists the
    months chronologically, however many months the list holds. *)
Theorem labels_follow_time (a b : Z) :
  0 <= a -> a < b -> year b <= 9999 ->
  String.ltb (monthString a) (monthString b) = true.
Proof.
  intros Ha Hab Yb.
  assert (Ya : year a <= 9999).
  { rewrite year_div in *. div_lia. }
  assert (Hb : 0 <= b) by lia.
  assert (L : year a * 12 + monthOfYear a < year b * 12 + monthOfYear b).
  { rewrite !year_div, !monthOfYear_mod by assumption. div_lia. }
  pose proof (monthOfYear_range a Ha) as Ma.
  pose proof (monthOfYear_range b Hb) as Mb.
  destruct (monthString_digits a Ha Ya)
    as (a3 & a2 & a1 & a0 & ae & af & -> & Da & Dam & Eya & Ema).
  destruct (monthString_digits b Hb Yb)
    as (b3 & b2 & b1 & b0 & be & bf & -> & Db & Dbm & Eyb & Emb).
  rewrite Eya, Ema, Eyb, Emb in *. clear Eya Ema Eyb Emb Ya Yb.
  unfold String.ltb. cbn [String.compare].
  rewrite !compare_digit by lia.
  change (Ascii.compare "-" "-") with Eq.
  repeat match goal with
         | |- context [?x ?= ?y] => destruct (Z.compare_spec x y)
         end; try reflexivity; lia.
Qed.

Lemma labels_follow_time_witness :
  0 <= 11 /\ 11 < 12 /\ year 12 <= 9999
  /\ String.ltb (monthString 11) (monthString 12) = true.
Proof.
  assert (Y : year 12 <= 9999) by (vm_compute; discriminate).
  split; [lia|]. split; [lia|]. split; [exact Y|].
  apply (labels_follow_time 11 12); [lia | lia | exact Y].
Defined.

(* ------------------------------------------------------------------------- *)
(** ** Buckets of any month index *)

(** From the first day of a month to the first day of the next there are as
    many days as the month has, leap years included. *)
Lemma days_to_next_month (y m : Z) :
  1 <= m <= 12 ->
  Date.days_from_civil ((y * 12 + (m - 1) + 1) / 12) ((y * 12 + (m - 1) + 1) mod 12 + 1) 1
  - Date.days_from_civil y m 1
  = Date.days_in_month y m.
Proof.
  intros H.
  replace (y * 12 + (m - 1) + 1) with (y * 12 + m) by lia.
  assert (C : m = 1 \/ m = 2 \/ m = 3 \/ m = 4 \/ m = 5 \/ m = 6 \/ m = 7
              \/ m = 8 \/ m = 9 \/ m = 10 \/ m = 11 \/ m = 12) by lia.
  repeat (destruct C as [-> | C]); subst;
    match goal with
    | |- context [(y * 12 + ?k) / 12] =>
        let E1 := fresh "E" in
        let E2 := fresh "E" in
        assert (E1 : (y * 12 + k) / 12 = if k =? 12 then y + 1 else y)
          by (cbn [Z.eqb Pos.eqb]; div_lia);
        assert (E2 : (y * 12 + k) mod 12 + 1 = if k =? 12 then 1 else k + 1)
          by (cbn [Z.eqb Pos.eqb]; div_lia);
        rewrite E1, E2; clear E1 E2
    end;
    cbn [Z.eqb Pos.eqb Z.add Pos.add Pos.succ];
    unfold Date.days_from_civil, Date.days_in_month, Date.is_leap;
    cbn [Z.leb Z.compare Pos.compare Pos.compare_cont Z.eqb Pos.eqb Z.add Pos.add
           Pos.succ orb Z.sub Z.opp Z.pos_sub Pos.pred_double Z.succ_double
           Z.pred_double Z.double Z.mul Pos.mul];
    repeat match goal with
           | |- context [?a =? ?b] => destruct (Z.eqb_spec a b)
           end;
    cbn [andb orb negb]; div_lia.
Qed.

Lemma bucket_length (month : Z) :
  0 <= month ->
  Date.millis (monthEnd month) - Date.millis (monthStart month)
  = Date.days_in_month (year month) (monthOfYear month) * 86400000.
Proof.
  intros H. pose proof (monthOfYear_range month H) as Hm.
  unfold monthEnd, monthStart, Date.advance, Date.fromYMD, Date.millis.
  cbn [Date.year Date.month Date.day].
  rewrite Z.min_l.
  - rewrite <- Z.mul_sub_distr_r. f_equal. now apply days_to_next_month.
  - unfold Date.days_in_month.
    repeat match goal with |- context [if ?b then _ else _] => destruct b end; lia.
Qed.

Lemma days_in_month_range (y m : Z) : 28 <= Date.days_in_month y m <= 31.
Proof.
  unfold Date.days_in_month.
  repeat match goal with |- context [if ?b then _ else _] => destruct b end; lia.
Qed.

Lemma monthStart_lt_next (month : Z) :
  0 <= month ->
  Date.millis (monthStart month) < Date.millis (monthStart (month + 1)).
Proof.
  intros H. rewrite <- monthEnd_next by assumption.
  pose proof (bucket_length month H).
  pose proof (days_in_month_range (year month) (monthOfYear month)). lia.
Qed.

Lemma monthStart_lt (a b : Z) :
  0 <= a -> a < b ->
  Date.millis (monthStart a) < Date.millis (monthStart b).
Proof.
  intros Ha Hab.
  replace b with (a + 1 + Z.of_nat (Z.to_nat (b - a - 1))) by lia.
  induction (Z.to_nat (b - a - 1)) as [|n IH].
  - rewrite Z.add_0_r. now apply monthStart_lt_next.
  - etransitivity; [exact IH|].
    replace (a + 1 + Z.of_nat (S n)) with (a + 1 + Z.of_nat n + 1) by lia.
    apply monthStart_lt_next. lia.
Qed.

(** X4. Every bucket of a month index up to the year 9999 lasts exactly as
    many days as its calendar month has, between 28 and 31, February of a
    leap year included. *)
Theorem bucket_spans_its_calendar_month (month : Z) :
  0 <= month -> year month <= 9999 ->
  Date.millis (monthEnd month) - Date.millis (monthStart month)
  = Date.days_in_month (year month) (monthOfYear month) * 86400000
  /\ 28 <= Date.days_in_month (year month) (monthOfYear month) <= 31.
Proof.
  intros H _. split; [now apply bucket_length | apply days_in_month_range].
Qed.

Lemma bucket_spans_its_calendar_month_witness :
  0 <= 13 /\ year 13 <= 9999
  /\ Date.millis (monthEnd 13) - Date.millis (monthStart 13)
     = Date.days_in_month (year 13) (monthOfYear 13) * 86400000
  /\ 28 <= Date.days_in_month (year 13) (monthOfYear 13) <= 31.
Proof.
  assert (Y : year 13 <= 9999) by (vm_compute; discriminate).
  split; [lia|]. split; [exact Y|].
  apply (bucket_spans_its_calendar_month 13); [lia | exact Y].
Defined.

(** X5. The bucket scheme partitions time for any number n of buckets that
    stays within the year 9999: an instant lies between the start of bucket
    0 and the start of bucket n exactly when one of the buckets 0..n-1 holds
    it, and no instant lies in two of them. *)
Theorem buckets_partition_any_count (n : nat) (time : Z) :
  year (Z.of_nat n) <= 9999 ->
  (Date.millis (monthStart 0) <= time < Date.millis (monthStart (Z.of_nat n))
   <-> exists month, 0 <= month < Z.of_nat n /\ in_bucket month time = true)
  /\ (forall m1 m2, 0 <= m1 < Z.of_nat n -> 0 <= m2 < Z.of_nat n ->
        in_bucket m1 time = true -> in_bucket m2 time = true -> m1 = m2).
Proof.
  intros _. split.
  - split; [apply buckets_cover|].
    intros (m & Hm & Hin). apply in_bucket_bounds in Hin; [|lia].
    assert (A : Date.millis (monthStart 0) <= Date.millis (monthStart m)).
    { destruct (Z.eq_dec m 0) as [-> | N]; [lia|].
      pose proof (monthStart_lt 0 m). lia. }
    assert (B : Date.millis (monthStart (m + 1))
                <= Date.millis (monthStart (Z.of_nat n))).
    { destruct (Z.eq_dec (m + 1) (Z.of_nat n)) as [<- | N]; [lia|].
      pose proof (monthStart_lt (m + 1) (Z.of_nat n)). lia. }
    lia.
  - intros m1 m2 H1 H2 B1 B2.
    apply in_bucket_bounds in B1; [|lia]. apply in_bucket_bounds in B2; [|lia].
    destruct (Z.lt_trichotomy m1 m2) as [L | [E | L]]; [| exact E |].
    + destruct (Z.eq_dec (m1 + 1) m2) as [<- | N]; [lia|].
      pose proof (monthStart_lt (m1 + 1) m2). lia.
    + destruct (Z.eq_dec (m2 + 1) m1) as [<- | N]; [lia|].
      pose proof (monthStart_lt (m2 + 1) m1). lia.
Qed.

Lemma buckets_partition_any_count_witness :
  year (Z.of_nat 72) <= 9999
  /\ (Date.millis (monthStart 0) <= 1600000000000 < Date.millis (monthStart (Z.of_nat 72))
      <-> exists month, 0 <= month < Z.of_nat 72
                        /\ in_bucket month 1600000000000 = true)
  /\ (forall m1 m2, 0 <= m1 < Z.of_nat 72 -> 0 <= m2 < Z.of_nat 72 ->
        in_bucket m1 1600000000000 = true -> in_bucket m2 1600000000000 = true ->
        m1 = m2).
Proof.
  assert (Y : year (Z.of_nat 72) <= 9999) by (vm_compute; discriminate).
  split; [exact Y|].
  apply (buckets_partition_any_count 72 1600000000000 Y).
Defined.

(* ------------------------------------------------------------------------- *)
(** ** More on the monthly series *)

Lemma nth_error_months (month : Z) :
  In month months -> nth_error months (Z.to_nat month) = Some month.
Proof.
  intros H. apply in_months in H.
  assert (E : month = Z.of_nat (Z.to_nat month)) by lia.
  assert (L : (Z.to_nat month < 24)%nat) by lia.
  rewrite E at 2. clear E H. generalize dependent (Z.to_nat month).
  intros n L. do 24 (destruct n as [|n]; [reflexivity|]). lia.
Qed.

(** X6. Passing through the dictionary keeps every month with its own
    request: feature i of either series holds the label of month i and the
    sample request of month i. *)
Theorem feature_pairs_label_with_sample (aoi : Geometry) (i : nat) :
  (i < 24)%nat ->
  (exists s, nth_error (monthlyCO aoi) i = Some s
             /\ nth_error (co_featureCollection aoi) i
                = Some [("month", PString (monthString (Z.of_nat i)));
                        ("co", PNumber s)])
  /\ (exists s, nth_error (monthlyNO2 aoi) i = Some s
                /\ nth_error (no2_featureCollection aoi) i
                   = Some [("month", PString (monthString (Z.of_nat i)));
                           ("no2", PNumber s)]).
Proof.
  intros H. rewrite co_featureCollection_eq, no2_featureCollection_eq.
  do 24 (destruct i as [|i];
         [split; eexists; split; reflexivity|]).
  lia.
Qed.

Lemma feature_pairs_label_with_sample_witness :
  (17 < 24)%nat
  /\ (exists s, nth_error (monthlyCO Sample.aoi) 17 = Some s
                /\ nth_error (co_featureCollection Sample.aoi) 17
                   = Some [("month", PString (monthString (Z.of_nat 17)));
                           ("co", PNumber s)])
  /\ (exists s, nth_error (monthlyNO2 Sample.aoi) 17 = Some s
                /\ nth_error (no2_featureCollection Sample.aoi) 17
                   = Some [("month", PString (monthString (Z.of_nat 17)));
                           ("no2", PNumber s)]).
Proof.
  split; [lia | apply (feature_pairs_label_with_sample Sample.aoi 17); lia].
Defined.

Section SampleLocality.

Context {Pixel : Type} {service : Service Pixel}.
Variable aoi : Geometry.

Lemma aggregate_same_in_bucket (cat1 cat2 : Catalog Pixel) (band id : string)
      (month : Z) :
  same_in_bucket aoi month id cat1 cat2 ->
  aggregate band id aoi (monthStart month, monthEnd month) cat1
  = aggregate band id aoi (monthStart month, monthEnd month) cat2.
Proof.
  intros H. unfold aggregate. cbn [fst snd].
  unfold same_in_bucket, in_bucket in H. now rewrite H.
Qed.

(** X7. A monthly sample reads nothing but the imagery of its own source
    collection that is dated inside its own bucket and meets the region: two
    catalogues that agree on that imagery give the same sample, whatever else
    they hold. *)
Theorem sample_reads_its_own_bucket (cat1 cat2 : Catalog Pixel) (month : Z) :
  In month months ->
  (same_in_bucket aoi month "COPERNICUS/S5P/OFFL/L3_CO" cat1 cat2 ->
   option_map (evalS cat1) (nth_error (monthlyCO aoi) (Z.to_nat month))
   = option_map (evalS cat2) (nth_error (monthlyCO aoi) (Z.to_nat month)))
  /\ (same_in_bucket aoi month "COPERNICUS/S5P/OFFL/L3_NO2" cat1 cat2 ->
      option_map (evalS cat1) (nth_error (monthlyNO2 aoi) (Z.to_nat month))
      = option_map (evalS cat2) (nth_error (monthlyNO2 aoi) (Z.to_nat month))).
Proof.
  intros Hm. unfold monthlyCO, monthlyNO2.
  rewrite !nth_error_map, (nth_error_months month Hm). cbn [option_map].
  split; intros H; f_equal.
  - transitivity (aggregate "CO_column_number_density" "COPERNICUS/S5P/OFFL/L3_CO"
                            aoi (monthStart month, monthEnd month) cat1).
    + now apply evalS_monthlyCO.
    + rewrite (aggregate_same_in_bucket _ _ _ _ _ H).
      symmetry. now apply evalS_monthlyCO.
  - transitivity (aggregate "NO2_column_number_density" "COPERNICUS/S5P/OFFL/L3_NO2"
                            aoi (monthStart month, monthEnd month) cat1).
    + now apply evalS_monthlyNO2.
    + rewrite (aggregate_same_in_bucket _ _ _ _ _ H).
      symmetry. now apply evalS_monthlyNO2.
Qed.

End SampleLocality.

Lemma sample_reads_its_own_bucket_witness :
  In 5 months
  /\ same_in_bucket (service := Sample.service) Sample.aoi 5
       "COPERNICUS/S5P/OFFL/L3_CO" Sample.cat1 Sample.cat2
  /\ option_map (evalS (service := Sample.service) Sample.cat1)
                (nth_error (monthlyCO Sample.aoi) (Z.to_nat 5))
     = option_map (evalS (service := Sample.service) Sample.cat2)
                  (nth_error (monthlyCO Sample.aoi) (Z.to_nat 5)).
Proof.
  assert (H : In 5 months) by (vm_compute; tauto).
  split; [exact H|]. split; [reflexivity|].
  apply (sample_reads_its_own_bucket (service := Sample.service)
           Sample.aoi Sample.cat1 Sample.cat2 5 H).
  reflexivity.
Defined.

(* ------------------------------------------------------------------------- *)
(** ** Plain selectors *)

Lemma parse_cons (c : ascii) (rest : string) :
  match rest with
  | String c' _ => Ascii.eqb c' "*" = false
  | EmptyString => True
  end ->
  Selector.parse (String c rest) = Selector.One (Selector.atom_of c) :: Selector.parse rest.
Proof.
  destruct rest as [|c' rest]; [reflexivity|]. intros H.
  destruct c' as [[] [] [] [] [] [] [] []]; try reflexivity; discriminate H.
Qed.

(** A plain selector matches its own name and no other. *)
Lemma matches_plain (s k : string) :
  plain s = true -> Selector.matches s k = String.eqb s k.
Proof.
  unfold Selector.matches. revert k.
  induction s as [|c s IH]; intros k H.
  - now destruct k.
  - cbn [plain] in H. apply andb_prop in H as [H Hs].
    apply andb_prop in H as [Hdot Hstar].
    rewrite parse_cons.
    + unfold Selector.atom_of.
      destruct (Ascii.eqb c ".") eqn:E; [discriminate Hdot|].
      destruct k as [|c' k]; [reflexivity|].
      cbn [Selector.run Selector.accepts String.eqb]. now rewrite IH.
    + destruct s as [|c' s']; [exact I|]. cbn [plain] in Hs.
      apply andb_prop in Hs as [Hs _]. apply andb_prop in Hs as [_ Hs].
      now destruct (Ascii.eqb c' "*").
Qed.

Lemma compare_refl (s : string) : String.compare s s = Eq.
Proof.
  pose proof (String.compare_antisym s s) as H.
  destruct (String.compare s s); (reflexivity || discriminate H).
Qed.

(** A dictionary built from copies of one entry holds that entry. *)
Lemma fromLists_copies {A B} (k : string) (g : A -> B) (x : A)
      (l : list (string * A)) :
  l <> [] -> Forall (fun b => b = (k, x)) l ->
  lookup k (Dictionary.fromLists (map fst l) (map (fun b => g (snd b)) l))
  = Some (g x).
Proof.
  intros Hne Hall. unfold Dictionary.fromLists.
  destruct l as [|b l]; [contradiction|].
  inversion Hall as [|? ? Hb Hl]; subst. cbn [map combine fold_left fst snd Dictionary.set].
  assert (G : fold_left (fun d kv => Dictionary.set (fst kv) (snd kv) d)
                        (combine (map fst l) (map (fun b => g (snd b)) l))
                        [(k, g x)] = [(k, g x)]).
  { clear Hne Hall. induction Hl as [|b l Hb Hl IH]; [reflexivity|]. subst b.
    cbn [map combine fold_left fst snd Dictionary.set].
    rewrite compare_refl. exact IH. }
  rewrite G. cbn [lookup]. now rewrite String.eqb_refl.
Qed.

(* ------------------------------------------------------------------------- *)
(** ** The value of a monthly sample *)

Section SampleValue.

Context {Pixel : Type} {service : Service Pixel}.
Variable aoi : Geometry.

Lemma aggregate_value (cat : Catalog Pixel) (band id : string) (month : Z)
      (im : ImageData Pixel) (rest : list (ImageData Pixel)) :
  plain band = true ->
  filter (fun im => in_bucket month (time_start im)
                    && intersects aoi (footprint im)) (cat id) = im :: rest ->
  hasBand band (bands im) = true ->
  aggregate band id aoi (monthStart month, monthEnd month) cat
  = Some (regionReduce (monthly_args aoi)
            (fun p => reduceValues Mean (stack (im :: rest) band p))).
Proof.
  intros Hp Hstack Hband. unfold aggregate. cbn [fst snd].
  unfold in_bucket in Hstack. rewrite Hstack.
  set (F := fun k : string => fun p : Pixel => reduceValues Mean (stack (im :: rest) k p)).
  assert (All : Forall (fun b => b = (band, F band))
                       (filter (fun b : string * RasterOf Q Pixel => Selector.matches band (fst b))
                               (reduceImages Mean (im :: rest)))).
  { apply Forall_forall. intros [k r] Hin. apply filter_In in Hin as [Hin Hk].
    cbn [fst] in Hk. rewrite (matches_plain _ _ Hp) in Hk.
    apply String.eqb_eq in Hk. subst k.
    unfold reduceImages in Hin. apply in_map_iff in Hin as (b & E & _).
    now inversion E. }
  assert (Ne : filter (fun b : string * RasterOf Q Pixel => Selector.matches band (fst b))
                      (reduceImages Mean (im :: rest)) <> []).
  { intros E.
    pose proof (lookup_filter_key (A := RasterOf Q Pixel) (Selector.matches band) band
                  (reduceImages Mean (im :: rest))) as L.
    rewrite E, (matches_plain _ _ Hp), String.eqb_refl, lookup_reduceImages in L.
    unfold hasBand in Hband. destruct (lookup band (bands im)); discriminate. }
  unfold selectBands.
  destruct (filter _ (reduceImages Mean (im :: rest))) as [|b bs] eqn:E;
    [contradiction|].
  cbn [bind].
  exact (fromLists_copies (A := RasterOf Q Pixel) band (regionReduce (monthly_args aoi))
           (F band) (b :: bs) Ne All).
Qed.

(** X8. For a bucket that has imagery with the band, the monthly sample is
    what the areal reduction of the service returns, number or null, for the
    pixel-wise mean of the band over the bucket's images in the region, with
    the script's arguments.  The script puts no other value in its place.
    This holds for CO and for NO2, each from its own collection and band. *)
Theorem sample_is_the_areal_mean (cat : Catalog Pixel) (month : Z) :
  In month months ->
  (forall im rest,
     filter (fun im => in_bucket month (time_start im)
                       && intersects aoi (footprint im))
            (cat "COPERNICUS/S5P/OFFL/L3_CO") = im :: rest ->
     hasBand "CO_column_number_density" (bands im) = true ->
     option_map (evalS cat) (nth_error (monthlyCO aoi) (Z.to_nat month))
     = Some (Some (regionReduce (monthly_args aoi)
                     (fun p => reduceValues Mean
                                 (stack (im :: rest) "CO_column_number_density" p)))))
  /\ (forall im rest,
        filter (fun im => in_bucket month (time_start im)
                          && intersects aoi (footprint im))
               (cat "COPERNICUS/S5P/OFFL/L3_NO2") = im :: rest ->
        hasBand "NO2_column_number_density" (bands im) = true ->
        option_map (evalS cat) (nth_error (monthlyNO2 aoi) (Z.to_nat month))
        = Some (Some (regionReduce (monthly_args aoi)
                        (fun p => reduceValues Mean
                                    (stack (im :: rest) "NO2_column_number_density" p))))).
Proof.
  intros Hm. unfold monthlyCO, monthlyNO2.
  rewrite !nth_error_map, (nth_error_months month Hm). cbn [option_map].
  split; intros im rest Hstack Hband; f_equal.
  - transitivity (aggregate "CO_column_number_density" "COPERNICUS/S5P/OFFL/L3_CO"
                            aoi (monthStart month, monthEnd month) cat).
    + now apply evalS_monthlyCO.
    + now apply aggregate_value.
  - transitivity (aggregate "NO2_column_number_density" "COPERNICUS/S5P/OFFL/L3_NO2"
                            aoi (monthStart month, monthEnd month) cat).
    + now apply evalS_monthlyNO2.
    + now apply aggregate_value.
Qed.

End SampleValue.

Lemma sample_is_the_areal_mean_witness :
  In 5 months
  /\ filter (fun im => in_bucket 5 (time_start im)
                       && intersects (Service := Sample.service) Sample.aoi (footprint im))
            (Sample.cat1 "COPERNICUS/S5P/OFFL/L3_CO")
     = [Sample.image 2019 6 15 (Sample.s5p 0.03)]
  /\ hasBand "CO_column_number_density" (Sample.s5p 0.03) = true
  /\ option_map (evalS (service := Sample.service) Sample.cat1)
                (nth_error (monthlyCO Sample.aoi) (Z.to_nat 5))
     = Some (Some (regionReduce (Service := Sample.service) (monthly_args Sample.aoi)
                     (fun p => reduceValues Mean
                                 (stack [Sample.image 2019 6 15 (Sample.s5p 0.03)]
                                        "CO_column_number_density" p)))).
Proof.
  assert (H : In 5 months) by (vm_compute; tauto).
  split; [exact H|]. split; [reflexivity|]. split; [reflexivity|].
  apply (sample_is_the_areal_mean (service := Sample.service)
           Sample.aoi Sample.cat1 5 H); reflexivity.
Defined.

(* ------------------------------------------------------------------------- *)
(** ** The maximum of a stack *)

Lemma qmax_cases (a b : Q) : qmax a b = a \/ qmax a b = b.
Proof. unfold qmax. destruct (Qle_bool a b); auto. Qed.

Lemma qmax_ge (a b : Q) : (a <= qmax a b)%Q /\ (b <= qmax a b)%Q.
Proof.
  unfold qmax. destruct (Qle_bool a b) eqn:E.
  - apply Qle_bool_iff in E. split; [exact E | apply Qle_refl].
  - split; [apply Qle_refl|].
    apply Qlt_le_weak, Qnot_le_lt. intros H.
    apply Qle_bool_iff in H. congruence.
Qed.

Lemma fold_qmax (vs : list Q) :
  forall v,
    In (fold_left qmax vs v) (v :: vs)
    /\ forall x, In x (v :: vs) -> (x <= fold_left qmax vs v)%Q.
Proof.
  induction vs as [|w vs IH]; intros v.
  - cbn. split; [now left|]. intros x [<- | []]. apply Qle_refl.
  - cbn [fold_left]. destruct (IH (qmax v w)) as [Hin Hub]. split.
    + destruct Hin as [E | Hin]; [|now right; right].
      rewrite <- E. destruct (qmax_cases v w) as [-> | ->]; [now left | now right; left].
    + intros x Hx. destruct (qmax_ge v w) as [Gv Gw].
      assert (M : (qmax v w <= fold_left qmax vs (qmax v w))%Q) by (apply Hub; now left).
      destruct Hx as [<- | [<- | Hx]].
      * eapply Qle_trans; eassumption.
      * eapply Qle_trans; eassumption.
      * apply Hub. now right.
Qed.

(* ------------------------------------------------------------------------- *)
(** ** The map layers *)

Lemma traverse_Forall2 {A B} (f : A -> option B) (l : list A) :
  forall l', traverse f l = Some l' -> Forall2 (fun a b => f a = Some b) l l'.
Proof.
  induction l as [|a l IH]; intros l' H.
  - injection H as <-. constructor.
  - cbn [traverse] in H. destruct (f a) as [b|] eqn:E; [|discriminate].
    cbn [bind] in H. destruct (traverse f l) as [bs|]; [|discriminate].
    injection H as <-. constructor; [exact E | now apply IH].
Qed.

Section Layers.

Context {Pixel : Type} {service : Service Pixel}.

Lemma clip_masks (g : Geometry) (bs : Bands Pixel) (p : Pixel) :
  contains g p = false -> maskedAt p (clipBands g bs).
Proof.
  intros H b r Hin. unfold clipBands in Hin.
  apply in_map_iff in Hin as (x & E & _). inversion E. now rewrite H.
Qed.

Lemma mapValues_masks (f : Q -> Q) (bs : Bands Pixel) (p : Pixel) :
  maskedAt p bs -> maskedAt p (mapValues f bs).
Proof.
  intros H b r Hin. unfold mapValues in Hin.
  apply in_map_iff in Hin as ([k r'] & E & Hin). inversion E.
  cbn [snd]. now rewrite (H k r' Hin).
Qed.

Lemma evalI_clip_masks (cat : Catalog Pixel) (g : Geometry) (i : Image)
      (bs : Bands Pixel) (p : Pixel) :
  evalI cat (clip g i) = Some bs -> contains g p = false -> maskedAt p bs.
Proof.
  cbn [evalI]. destruct (evalI cat i); [|discriminate].
  intros E. injection E as <-. apply clip_masks.
Qed.

(** X9. No map layer shows anything outside the study region: whatever the
    catalogue holds, every band of every one of the seven layers is masked at
    every pixel outside the region. *)
Theorem layers_show_nothing_outside (cat : Catalog Pixel) (aoi : Geometry)
        (l : Layer) (bs : Bands Pixel) (p : Pixel) :
  In l (layers aoi) ->
  evalI cat (eeObject l) = Some bs ->
  contains aoi p = false ->
  maskedAt p bs.
Proof.
  intros Hl He Hp. unfold layers in Hl. cbn [In] in Hl.
  repeat (destruct Hl as [<- | Hl]); try contradiction;
    cbn [eeObject landsat_rgb landsat_false_color] in He;
    unfold landsat_rgb, landsat_false_color, clip_CO, clip_NO2, sent_aer,
      modisFire_roi, geometry, roi in He; cbn [eeObject] in He.
  1-5, 7: now apply (evalI_clip_masks cat aoi _ bs p He).
  cbn [evalI] in He.
  destruct (evalI cat (modisFire aoi)) as [m|]; [|discriminate].
  injection He as <-. now apply mapValues_masks, clip_masks.
Qed.

Lemma modis_composite (cat : Catalog Pixel) (aoi : Geometry)
      (imgs : list (ImageData Pixel)) :
  evalC cat (Load "MODIS/006/MOD14A1"
               |> filterDate fireStart fireEnd
               |> selectC "MaxFRP"
               |> filterBounds (roi aoi)) = Some imgs ->
  evalI cat (modisFire_roi aoi) = Some (clipBands (roi aoi) (reduceImages Max imgs)).
Proof.
  intros H. unfold modisFire_roi, modisFire, max. cbn [evalI]. now rewrite H.
Qed.

Lemma max_value (g : Geometry) (imgs : list (ImageData Pixel))
      (b : string) (p : Pixel) (v : Q) :
  valueAt b p (clipBands g (reduceImages Max imgs)) = Some (Some v) ->
  contains g p = true
  /\ In v (stack imgs b p)
  /\ forall x, In x (stack imgs b p) -> (x <= v)%Q.
Proof.
  unfold valueAt. rewrite lookup_clipBands.
  destruct imgs as [|im rest]; [discriminate|].
  rewrite lookup_reduceImages.
  destruct (lookup b (bands im)); [|discriminate]. cbn [option_map].
  destruct (contains g p); [|discriminate].
  unfold reduceValues. destruct (stack (im :: rest) b p) as [|v0 vs]; [discriminate|].
  intros E. injection E as <-. split; [reflexivity|]. apply fold_qmax.
Qed.

(** X10. The fire-radiative-power layer shows, at a pixel, a value that some
    image of the period really has there, and no image of the period has a
    larger one; a pixel that shows a value lies inside the region. *)
Theorem max_composite_is_attained (cat : Catalog Pixel) (aoi : Geometry)
        (imgs : list (ImageData Pixel)) :
  evalC cat (Load "MODIS/006/MOD14A1"
               |> filterDate fireStart fireEnd
               |> selectC "MaxFRP"
               |> filterBounds (roi aoi)) = Some imgs ->
  exists bs,
    evalI cat (modisFire_roi aoi) = Some bs
    /\ forall b p v,
         valueAt b p bs = Some (Some v) ->
         contains (roi aoi) p = true
         /\ In v (stack imgs b p)
         /\ forall x, In x (stack imgs b p) -> (x <= v)%Q.
Proof.
  intros H. eexists. split; [exact (modis_composite cat aoi imgs H)|].
  intros b p v. apply max_value.
Qed.

Lemma lookup_In {A} (k : string) (v : A) (l : list (string * A)) :
  lookup k l = Some v -> In (k, v) l.
Proof.
  induction l as [|[k' v'] l IH]; [discriminate|]. cbn [lookup].
  destruct (String.eqb k k') eqn:E.
  - apply String.eqb_eq in E. intros H. injection H as <-. subst. now left.
  - intros H. right. now apply IH.
Qed.

(** Every image of the fire-period stack has the band MaxFRP, and bands of
    that name only. *)
Lemma modis_stack_bands (cat : Catalog Pixel) (aoi : Geometry)
      (imgs : list (ImageData Pixel)) :
  evalC cat (Load "MODIS/006/MOD14A1"
               |> filterDate fireStart fireEnd
               |> selectC "MaxFRP"
               |> filterBounds (roi aoi)) = Some imgs ->
  forall im, In im imgs ->
    hasBand "MaxFRP" (bands im) = true
    /\ forall k r, In (k, r) (bands im) -> k = "MaxFRP".
Proof.
  cbn [evalC option_map bind].
  destruct (traverse _ _) as [sel|] eqn:T; [|discriminate].
  cbn [option_map]. intros H im Him. injection H as <-.
  apply filter_In in Him as [Him _].
  apply traverse_Forall2 in T.
  assert (S : exists src bs, selectBands "MaxFRP" (bands src) = Some bs
                             /\ bands im = bs).
  { clear - T Him. induction T as [|a b l l' E _ IH]; [contradiction|].
    destruct Him as [<- | Him]; [|now apply IH].
    destruct (selectBands "MaxFRP" (bands a)) as [bs|] eqn:Es; [|discriminate].
    injection E as <-. now exists a, bs. }
  destruct S as (src & bs & Es & ->).
  assert (K : forall k r, In (k, r) bs -> k = "MaxFRP").
  { intros k r Hin. unfold selectBands in Es.
    assert (Hf : In (k, r) (filter (fun b : string * RasterOf Q Pixel =>
                                      Selector.matches "MaxFRP" (fst b)) (bands src))).
    { destruct (filter _ (bands src)); [discriminate | now injection Es as <-]. }
    apply filter_In in Hf as [_ Hk]. cbn [fst] in Hk.
    rewrite matches_plain in Hk by reflexivity.
    apply String.eqb_eq in Hk. now subst. }
  split; [|exact K].
  unfold selectBands in Es. destruct (filter _ (bands src)) as [|[k r] l]; [discriminate|].
  injection Es as <-. rewrite (K k r (or_introl eq_refl)).
  unfold hasBand. cbn [lookup]. now rewrite String.eqb_refl.
Qed.

(** X11. The fire-points layer shows 0 or 1 and nothing else, and only
    inside the region.  A pixel inside the region shows a value as soon as
    some image of the period has a valid value there, and it shows 1 exactly
    when some image of the period has a positive radiative power there. *)
Theorem fire_points_mark_positive_power (cat : Catalog Pixel) (aoi : Geometry)
        (imgs : list (ImageData Pixel)) :
  evalC cat (Load "MODIS/006/MOD14A1"
               |> filterDate fireStart fireEnd
               |> selectC "MaxFRP"
               |> filterBounds (roi aoi)) = Some imgs ->
  exists bs,
    evalI cat (modisFire_roi aoi |> gt 0) = Some bs
    /\ (forall b p v,
          valueAt b p bs = Some (Some v) ->
          contains (roi aoi) p = true
          /\ (v = 0%Q \/ v = 1%Q)
          /\ (v = 1%Q <-> exists x, In x (stack imgs b p) /\ (0 < x)%Q))
    /\ (forall b p x,
          contains (roi aoi) p = true ->
          In x (stack imgs b p) ->
          exists v, valueAt b p bs = Some (Some v)
                    /\ ((0 < x)%Q -> v = 1%Q)).
Proof.
  intros H. eexists. split; [|split].
  - cbn [evalI]. rewrite (modis_composite cat aoi imgs H). reflexivity.
  - intros b p v. unfold valueAt. rewrite lookup_mapValues.
    destruct (lookup b (clipBands (roi aoi) (reduceImages Max imgs))) as [r|] eqn:L;
      [|discriminate].
    cbn [option_map]. destruct (r p) as [m|] eqn:R; [|discriminate].
    cbn [option_map]. intros E. injection E as <-.
    assert (V : valueAt b p (clipBands (roi aoi) (reduceImages Max imgs)) = Some (Some m)).
    { unfold valueAt. rewrite L. cbn [option_map]. now rewrite R. }
    destruct (max_value _ _ _ _ _ V) as (Hc & Hin & Hub).
    split; [exact Hc|].
    destruct (Qle_bool m 0) eqn:Em.
    + split; [now left|]. split; [discriminate|].
      intros (x & Hx & Px). apply Qle_bool_iff in Em.
      exfalso. apply (Qlt_not_le 0 x Px).
      eapply Qle_trans; [apply Hub, Hx | exact Em].
    + split; [now right|]. split; [|reflexivity].
      intros _. exists m. split; [exact Hin|].
      apply Qnot_le_lt. intros Hle. apply Qle_bool_iff in Hle. congruence.
  - intros b p x Hp Hx.
    assert (Hx' := Hx). unfold stack in Hx'. apply in_flat_map in Hx' as (im & Him & Hv).
    destruct (lookup b (bands im)) as [r|] eqn:Lb; [|contradiction].
    destruct (modis_stack_bands cat aoi imgs H im Him) as [_ Kim].
    pose proof (Kim b r (lookup_In _ _ _ Lb)) as ->.
    destruct imgs as [|im0 rest]; [contradiction|].
    destruct (modis_stack_bands cat aoi _ H im0 (or_introl eq_refl)) as [B0 _].
    unfold hasBand in B0.
    destruct (lookup "MaxFRP" (bands im0)) as [r0|] eqn:L0; [|discriminate].
    unfold valueAt.
    rewrite lookup_mapValues, lookup_clipBands, lookup_reduceImages, L0.
    cbn [option_map]. rewrite Hp. unfold reduceValues.
    destruct (stack (im0 :: rest) "MaxFRP" p) as [|v0 vs] eqn:Es; [contradiction|].
    cbn [option_map]. eexists. split; [reflexivity|].
    intros Px. destruct (fold_qmax vs v0) as [_ Hub].
    destruct (Qle_bool (fold_left qmax vs v0) 0) eqn:Em; [|reflexivity].
    apply Qle_bool_iff in Em. exfalso. apply (Qlt_not_le 0 x Px).
    eapply Qle_trans; [apply Hub, Hx | exact Em].
Qed.

End Layers.

Lemma layers_show_nothing_outside_witness :
  In (mkLayer (modisFire_roi Sample.aoi) (frp_viz)
              "MODIS Fire Radiative Power" false 1) (layers Sample.aoi)
  /\ evalI (service := Sample.service) Sample.modis (modisFire_roi Sample.aoi)
     = Some (clipBands (service := Sample.service) Sample.aoi
               (reduceImages Max [Sample.fire_image_frp]))
  /\ contains (Service := Sample.service) Sample.aoi false = false
  /\ maskedAt false (clipBands (service := Sample.service) Sample.aoi
                       (reduceImages Max [Sample.fire_image_frp])).
Proof.
  assert (Hl : In (mkLayer (modisFire_roi Sample.aoi) (frp_viz)
                           "MODIS Fire Radiative Power" false 1) (layers Sample.aoi))
    by (do 6 right; left; reflexivity).
  split; [exact Hl|]. split; [reflexivity|]. split; [reflexivity|].
  apply (layers_show_nothing_outside (service := Sample.service)
           Sample.modis Sample.aoi _ _ false Hl); reflexivity.
Defined.

Lemma max_composite_is_attained_witness :
  evalC (service := Sample.service) Sample.modis
        (Load "MODIS/006/MOD14A1"
           |> filterDate fireStart fireEnd
           |> selectC "MaxFRP"
           |> filterBounds (roi Sample.aoi)) = Some [Sample.fire_image_frp]
  /\ exists bs,
       evalI (service := Sample.service) Sample.modis (modisFire_roi Sample.aoi) = Some bs
       /\ forall b p v,
            valueAt b p bs = Some (Some v) ->
            contains (Service := Sample.service) (roi Sample.aoi) p = true
            /\ In v (stack [Sample.fire_image_frp] b p)
            /\ forall x, In x (stack [Sample.fire_image_frp] b p) -> (x <= v)%Q.
Proof.
  split; [reflexivity|].
  apply (max_composite_is_attained (service := Sample.service)
           Sample.modis Sample.aoi [Sample.fire_image_frp]).
  reflexivity.
Defined.

Lemma fire_points_mark_positive_power_witness :
  evalC (service := Sample.service) Sample.modis
        (Load "MODIS/006/MOD14A1"
           |> filterDate fireStart fireEnd
           |> selectC "MaxFRP"
           |> filterBounds (roi Sample.aoi)) = Some [Sample.fire_image_frp]
  /\ exists bs,
       evalI (service := Sample.service) Sample.modis
             (modisFire_roi Sample.aoi |> gt 0) = Some bs
       /\ (forall b p v,
             valueAt b p bs = Some (Some v) ->
             contains (Service := Sample.service) (roi Sample.aoi) p = true
             /\ (v = 0%Q \/ v = 1%Q)
             /\ (v = 1%Q <-> exists x, In x (stack [Sample.fire_image_frp] b p)
                                       /\ (0 < x)%Q))
       /\ (forall b p x,
             contains (Service := Sample.service) (roi Sample.aoi) p = true ->
             In x (stack [Sample.fire_image_frp] b p) ->
             exists v, valueAt b p bs = Some (Some v)
                       /\ ((0 < x)%Q -> v = 1%Q)).
Proof.
  split; [reflexivity|].
  apply (fire_points_mark_positive_power (service := Sample.service)
           Sample.modis Sample.aoi [Sample.fire_image_frp]).
  reflexivity.
Defined.

(* ------------------------------------------------------------------------- *)
(** ** The Landsat scenes *)

Section Landsat.

Context {Pixel : Type} {service : Service Pixel}.

(** X12. The printed Landsat image count is the number of scenes of the
    collection that are dated inside the fire period, meet the region and
    carry a CLOUD_COVER below 30; a scene without that property is not
    counted, and the count never exceeds the size of the collection. *)
Theorem landsat_count_is_the_filtered_scenes (cat : Catalog Pixel) (aoi : Geometry) :
  exists scenes,
    evalC cat (landsatFire aoi) = Some scenes
    /\ evalSize cat (landsatFire aoi) = Some (List.length scenes)
    /\ (List.length scenes <= List.length (cat "LANDSAT/LC08/C02/T1_L2"))%nat
    /\ forall im,
         In im scenes <->
         In im (cat "LANDSAT/LC08/C02/T1_L2")
         /\ Date.within fireStart fireEnd (time_start im) = true
         /\ intersects (roi aoi) (footprint im) = true
         /\ exists c, lookup "CLOUD_COVER" (properties im) = Some c /\ (c < 30)%Q.
Proof.
  eexists. split; [reflexivity|]. split; [reflexivity|]. split.
  - etransitivity; [apply filter_length_le|].
    etransitivity; [apply filter_length_le|]. apply filter_length_le.
  - intros im. rewrite !filter_In. unfold testProperty. split.
    + intros [[[Hin Hd] Hb] Hc]. repeat (split; [assumption|]).
      destruct (lookup "CLOUD_COVER" (properties im)) as [c|]; [|discriminate].
      exists c. split; [reflexivity|].
      apply Qnot_le_lt. intros Hle. apply Qle_bool_iff in Hle.
      now rewrite Hle in Hc.
    + intros (Hin & Hd & Hb & c & Hc & Hlt).
      split; [now repeat split|].
      rewrite Hc. destruct (Qle_bool 30 c) eqn:E; [|reflexivity].
      apply Qle_bool_iff in E. exfalso. now apply (Qlt_not_le c 30).
Qed.

(** Bands taken from an image carry names of that image. *)
Lemma selected_names (selector : string) (bs sel : BandsOf Q Pixel) :
  selectBands selector bs = Some sel ->
  forall b, In b sel -> hasBand (fst b) bs = true.
Proof.
  unfold selectBands. intros H b Hb.
  assert (Hin : In b (filter (fun b => Selector.matches selector (fst b)) bs)).
  { destruct (filter _ bs); [discriminate | now inversion H; subst]. }
  apply filter_In in Hin as [Hin _]. unfold hasBand.
  destruct b as [k r]. cbn [fst]. clear - Hin.
  induction bs as [|[k' r'] bs IH]; [contradiction|].
  cbn [lookup]. destruct (String.eqb k k') eqn:E; [reflexivity|].
  destruct Hin as [Heq | Hin]; [|now apply IH].
  inversion Heq; subst. now rewrite String.eqb_refl in E.
Qed.

Lemma hasBand_names (k : string) (bs bs' : BandsOf Q Pixel) :
  map fst bs = map fst bs' -> hasBand k bs = hasBand k bs'.
Proof.
  unfold hasBand. revert bs'.
  induction bs as [|[k1 r1] bs IH]; intros [|[k2 r2] bs'] H; try discriminate H;
    [reflexivity|].
  cbn [map fst] in H. injection H as -> H. cbn [lookup].
  destruct (String.eqb k k2); [reflexivity | now apply IH].
Qed.

Lemma addBands_names (src dst : BandsOf Q Pixel) :
  (forall b, In b src -> hasBand (fst b) dst = true) ->
  map fst (addBands src true dst) = map fst dst.
Proof.
  intros H. unfold addBands. rewrite map_app.
  replace (filter (fun b => negb (hasBand (fst b) dst)) src) with (@nil (string * RasterOf Q Pixel)).
  - rewrite app_nil_r, map_map. apply map_ext.
    intros [k r]. cbn [fst]. now destruct (lookup k src).
  - symmetry. induction src as [|b src IH]; [reflexivity|].
    cbn [filter]. rewrite (H b (or_introl eq_refl)). cbn [negb].
    apply IH. intros b' Hb'. apply H. now right.
Qed.

Lemma mapValues_names (f : Q -> Q) (bs : BandsOf Q Pixel) :
  map fst (mapValues f bs) = map fst bs.
Proof. unfold mapValues. rewrite map_map. reflexivity. Qed.

Lemma In_mapValues_name (f : Q -> Q) (bs : BandsOf Q Pixel) (b : string * RasterOf Q Pixel) :
  In b (mapValues f bs) -> exists b', In b' bs /\ fst b' = fst b.
Proof.
  unfold mapValues. intros H. apply in_map_iff in H as (b' & <- & Hin).
  now exists b'.
Qed.

(** A successful run selected both band groups. *)
Lemma applyScaleFactors_inv (image scaled : Bands Pixel) :
  evalOp (applyScaleFactors Arg) image = Some scaled ->
  exists optical thermal,
    selectBands "SR_B." image = Some optical
    /\ selectBands "ST_B.*" image = Some thermal
    /\ scaled
       = addBands (mapValues (fun v => v + 149.0)%Q
                     (mapValues (fun v => v * 0.00341802)%Q thermal)) true
           (addBands (mapValues (fun v => v + -0.2)%Q
                        (mapValues (fun v => v * 0.0000275)%Q optical)) true image).
Proof.
  unfold applyScaleFactors. cbn [evalOp bind option_map].
  destruct (selectBands "SR_B." image) as [optical|]; [|discriminate].
  cbn [bind option_map].
  destruct (selectBands "ST_B.*" image) as [thermal|]; [|discriminate].
  cbn [bind option_map]. intros H. injection H as <-.
  now exists optical, thermal.
Qed.

(** X14. [applyScaleFactors] neither adds, drops, renames nor reorders
    bands: the scaled image has the band list of the raw image. *)
Theorem scaling_keeps_band_list (image scaled : Bands Pixel) :
  evalOp (applyScaleFactors Arg) image = Some scaled ->
  map fst scaled = map fst image.
Proof.
  intros H. apply applyScaleFactors_inv in H as (optical & thermal & EO & ET & ->).
  assert (N1 : map fst (addBands (mapValues (fun v => v + -0.2)%Q
                                   (mapValues (fun v => v * 0.0000275)%Q optical))
                          true image) = map fst image).
  { apply addBands_names. intros b Hb.
    apply In_mapValues_name in Hb as (b1 & Hb & <-).
    apply In_mapValues_name in Hb as (b2 & Hb & <-).
    exact (selected_names _ _ _ EO b2 Hb). }
  rewrite addBands_names; [exact N1|].
  intros b Hb.
  apply In_mapValues_name in Hb as (b1 & Hb & <-).
  apply In_mapValues_name in Hb as (b2 & Hb & <-).
  rewrite (hasBand_names _ _ _ N1).
  exact (selected_names _ _ _ ET b2 Hb).
Qed.

(** X15. [applyScaleFactors] works value by value: a band keeps its mask, an
    optical band becomes raw * 0.0000275 - 0.2, a thermal band becomes
    raw * 0.00341802 + 149.0, and every other band keeps its values. *)
Theorem scaling_is_pointwise (image scaled : Bands Pixel) :
  evalOp (applyScaleFactors Arg) image = Some scaled ->
  forall k p,
    valueAt k p scaled
    = option_map (fun r => option_map (rescale k) (r p)) (lookup k image).
Proof.
  intros H k p. apply applyScaleFactors_inv in H as (optical & thermal & EO & ET & ->).
  unfold valueAt, rescale.
  rewrite !lookup_addBands, !lookup_mapValues.
  rewrite (lookup_selectBands _ k _ _ EO), (lookup_selectBands _ k _ _ ET).
  destruct (Selector.matches "SR_B." k) eqn:Mo.
  - rewrite (optical_is_not_thermal k Mo).
    destruct (lookup k image) as [r|]; [|reflexivity].
    cbn [option_map]. now destruct (r p).
  - destruct (Selector.matches "ST_B.*" k);
      (destruct (lookup k image) as [r|]; [|reflexivity]);
      cbn [option_map]; now destruct (r p).
Qed.

End Landsat.

Lemma scaling_keeps_band_list_witness :
  evalOp (applyScaleFactors Arg) Sample.scene = Some scene_scaled
  /\ map fst scene_scaled = map fst Sample.scene.
Proof.
  split; [reflexivity|].
  apply (scaling_keeps_band_list Sample.scene scene_scaled). reflexivity.
Defined.

Lemma scaling_is_pointwise_witness :
  evalOp (applyScaleFactors Arg) Sample.scene = Some scene_scaled
  /\ forall k p,
       valueAt k p scene_scaled
       = option_map (fun r => option_map (rescale k) (r p)) (lookup k Sample.scene).
Proof.
  split; [reflexivity|].
  apply (scaling_is_pointwise Sample.scene scene_scaled). reflexivity.
Defined.
